(** * A shallow embedding of the Gonçalinho chat backend (src/server.js)
    and of the client-side chart post-processing (streamResponse).

    JavaScript strings are sequences of UTF-16 code units, so a string is a
    [list Z] of code units; [.length] is the length of that list and
    [.slice(0, n)] its first [n] units.  [String.prototype.toLowerCase] is
    the Unicode default case conversion; the definitions below take it as a
    parameter [toLowerCase] (a Section variable), so every theorem holds for
    whatever the engine does.  [js_to_lower] is a concrete instance that
    agrees with the engine on ASCII, on Latin-1 capitals and on U+0130; it is
    used only to evaluate the code on concrete inputs. *)

From Stdlib Require Import List ZArith String Ascii Bool Btauto Lia.
From Stdlib Require Import Sorting.Permutation Sorting.Sorted.
Import ListNotations.
Open Scope Z_scope.
Set Warnings "-register-all".

(** ** JavaScript strings *)
Module JsStr.

Definition jsstr := list Z.

(** An ASCII Rocq string literal as a JS string. *)
Fixpoint js (s : string) : jsstr :=
  match s with
  | EmptyString => []
  | String c r => Z.of_nat (nat_of_ascii c) :: js r
  end.

Definition zlen {A} (l : list A) : Z := Z.of_nat (List.length l).

Definition nl : jsstr := [10].
Definition sp : jsstr := [32].

(** [s.slice(0, n)] *)
Fixpoint take {A} (n : Z) (l : list A) : list A :=
  match l with
  | [] => []
  | x :: r => if n <=? 0 then [] else x :: take (n - 1) r
  end.

(** [s.startsWith(p)] *)
Fixpoint starts_with (p s : jsstr) : bool :=
  match p, s with
  | [], _ => true
  | _ :: _, [] => false
  | a :: p', b :: s' => (a =? b) && starts_with p' s'
  end.

(** [s.includes(p)] *)
Fixpoint includes (s p : jsstr) : bool :=
  match s with
  | [] => starts_with p []
  | _ :: r => starts_with p s || includes r p
  end.

(** [s.split(sep)] for a one-unit separator: "" splits into [""], and
    adjacent separators give empty pieces. *)
Fixpoint split_on (sep : Z) (s : jsstr) : list jsstr :=
  match s with
  | [] => [[]]
  | c :: r =>
      if c =? sep then [] :: split_on sep r
      else match split_on sep r with
           | w :: ws => (c :: w) :: ws
           | [] => [[c]]
           end
  end.

Definition jsstr_eqb (a b : jsstr) : bool :=
  if list_eq_dec Z.eq_dec a b then true else false.

(** An instance of [toLowerCase]: ASCII and Latin-1 capitals map to their
    small letters, U+0130 (capital I with dot above) maps to the two units
    U+0069 U+0307 (its full lower-case mapping), other units are kept. *)
Definition lower_unit (c : Z) : jsstr :=
  if (65 <=? c) && (c <=? 90) then [c + 32]
  else if (192 <=? c) && (c <=? 222) && negb (c =? 215) then [c + 32]
  else if c =? 304 then [105; 775]
  else [c].

Definition js_to_lower (s : jsstr) : jsstr := flat_map lower_unit s.

End JsStr.
Import JsStr.

(** ** FileRecord, as created by POST /api/upload *)
Module Db.

Record FileRecord := mkFile {
  id : jsstr;
  name : jsstr;
  path : jsstr;
  type : jsstr;
  content : jsstr;
  timestamp : Z;
  category : jsstr;
  description : jsstr;
  source : jsstr;
  period : jsstr;
  caseName : jsstr
}.

End Db.
Import Db.

(** ** Stable sort: [Array.prototype.sort(cmp)].
    The ECMAScript specification requires the sort to be stable; for a
    consistent comparator the result is then unique, so a stable insertion
    sort computes the same array as the engine's sort. *)
Module JsSort.
Section Sort.
Context {A : Type} (cmp : A -> A -> Z).

(** [x] is later in the input than every element of the sorted prefix, so
    it goes before the first element that must come after it. *)
Fixpoint insert (x : A) (l : list A) : list A :=
  match l with
  | [] => [x]
  | y :: ys => if 0 <? cmp y x then x :: y :: ys else y :: insert x ys
  end.

Definition sort (l : list A) : list A :=
  fold_left (fun acc x => insert x acc) l [].

End Sort.
End JsSort.

(** ** Relevance Selector: the body of POST /api/ask, lines 253-291 *)
Module Selector.
Section Selector.
Variable toLowerCase : jsstr -> jsstr.

Definition MAX_CONTEXT_CHARS : Z := 250000.

(** [message.toLowerCase().split(' ').filter(w => w.length > 3)] *)
Definition keywords (message : jsstr) : list jsstr :=
  filter (fun w => 3 <? zlen w) (split_on 32 (toLowerCase message)).

(** [`${f.name} ${f.caseName} ${f.category} ${f.description}`.toLowerCase()] *)
Definition fullMeta (f : FileRecord) : jsstr :=
  toLowerCase (name f ++ sp ++ caseName f ++ sp ++ category f ++ sp
               ++ description f).

(** [keywords.forEach(k => { if (fullMeta.includes(k)) score += 10; })] *)
Definition score_of (message : jsstr) (f : FileRecord) : Z :=
  fold_left (fun score k => if includes (fullMeta f) k then score + 10 else score)
            (keywords message) 0.

(** [db.files.map(f => ({file: f, score})).sort((a, b) => b.score - a.score)] *)
Definition sortedFiles (message : jsstr) (files : list FileRecord)
  : list (FileRecord * Z) :=
  JsSort.sort (fun a b => snd b - snd a)
              (map (fun f => (f, score_of message f)) files).

(** [f.content ? f.content.slice(0, 30000) : ''] *)
Definition contentSnippet (f : FileRecord) : jsstr :=
  match content f with
  | [] => []
  | c => take 30000 c
  end.

Definition block_head (f : FileRecord) : jsstr :=
  nl ++ js "--- ARQUIVO: " ++ name f ++ js " ---" ++ nl
  ++ js "METADADOS: Categoria: " ++ category f
  ++ js ", Indicador: " ++ caseName f
  ++ js ", Periodo: " ++ period f
  ++ js ", Fonte: " ++ source f
  ++ js ", Desc: " ++ description f ++ nl
  ++ js "CONTEUDO:" ++ nl.

Definition block_tail : jsstr := js " " ++ nl ++ js "--- FIM ARQUIVO ---" ++ nl.

(** The template literal [fileBlock]. *)
Definition fileBlock (f : FileRecord) : jsstr :=
  block_head f ++ contentSnippet f ++ block_tail.

(** [for (const item of sortedFiles) { ... if (currentChars +
    fileBlock.length < MAX_CONTEXT_CHARS) { ... } else break; }] *)
Fixpoint pack_loop (budget currentChars : Z) (selectedContext : jsstr)
         (items : list (FileRecord * Z)) : jsstr :=
  match items with
  | [] => selectedContext
  | item :: rest =>
      let b := fileBlock (fst item) in
      if currentChars + zlen b <? budget
      then pack_loop budget (currentChars + zlen b) (selectedContext ++ b) rest
      else selectedContext
  end.

Definition build_context (budget : Z) (message : jsstr) (files : list FileRecord)
  : jsstr :=
  pack_loop budget 0 [] (sortedFiles message files).

Definition select_context (message : jsstr) (files : list FileRecord) : jsstr :=
  build_context MAX_CONTEXT_CHARS message files.

End Selector.
End Selector.

(** ** JSON values, as produced by [JSON.parse] and consumed by [res.json] *)
Module Json.

(** A JSON number is kept as its decimal mantissa and exponent: [m * 10^e]. *)
Inductive jsval :=
| JNull
| JBool (b : bool)
| JNum (m e : Z)
| JStr (s : jsstr)
| JArr (items : list jsval)
| JObj (fields : list (jsstr * jsval)).

(** [obj.key]: the last own property of that name ([JSON.parse] keeps the
    last duplicate); [None] is [undefined]. *)
Fixpoint lookup_field (k : jsstr) (fs : list (jsstr * jsval)) : option jsval :=
  match fs with
  | [] => None
  | (k', v) :: rest =>
      match lookup_field k rest with
      | Some w => Some w
      | None => if jsstr_eqb k k' then Some v else None
      end
  end.

Definition get (v : jsval) (k : jsstr) : option jsval :=
  match v with
  | JObj fs => lookup_field k fs
  | _ => None
  end.

(** The binary64 value of [m * 10^e] is 0 exactly when [|m| * 10^e] is at
    most 2^-1075 (round half to even at the smallest subnormal). *)
Definition num_is_zero (m e : Z) : bool :=
  (m =? 0) || ((e <? 0) && (Z.abs m * 2 ^ 1075 <=? 10 ^ (- e))).

(** ToBoolean, with [None] standing for [undefined]. *)
Definition truthy (v : option jsval) : bool :=
  match v with
  | None | Some JNull | Some (JBool false) => false
  | Some (JNum m e) => negb (num_is_zero m e)
  | Some (JStr s) => negb (jsstr_eqb s [])
  | _ => true
  end.

End Json.
Import Json.

(** ** Text Extractor: [extractText], lines 110-143 *)
Module Extract.

(** Node's [path.posix.extname], scanning from the last code unit back. *)
Record ext_scan := {
  startDot : Z; startPart : Z; end_ : Z; matchedSlash : bool; preDotState : Z
}.

Fixpoint indexed (i : Z) (s : jsstr) : list (Z * Z) :=
  match s with
  | [] => []
  | c :: r => (i, c) :: indexed (i + 1) r
  end.

Fixpoint extname_loop (cs : list (Z * Z)) (st : ext_scan) : ext_scan :=
  match cs with
  | [] => st
  | (i, code) :: rest =>
      if code =? 47 then
        if negb (matchedSlash st)
        then {| startDot := startDot st; startPart := i + 1; end_ := end_ st;
                matchedSlash := matchedSlash st; preDotState := preDotState st |}
        else extname_loop rest st
      else
        let st1 := if end_ st =? -1
                   then {| startDot := startDot st; startPart := startPart st;
                           end_ := i + 1; matchedSlash := false;
                           preDotState := preDotState st |}
                   else st in
        let st2 :=
          if code =? 46 then
            if startDot st1 =? -1
            then {| startDot := i; startPart := startPart st1; end_ := end_ st1;
                    matchedSlash := matchedSlash st1; preDotState := preDotState st1 |}
            else if negb (preDotState st1 =? 1)
            then {| startDot := startDot st1; startPart := startPart st1;
                    end_ := end_ st1; matchedSlash := matchedSlash st1;
                    preDotState := 1 |}
            else st1
          else if negb (startDot st1 =? -1)
          then {| startDot := startDot st1; startPart := startPart st1;
                  end_ := end_ st1; matchedSlash := matchedSlash st1;
                  preDotState := -1 |}
          else st1 in
        extname_loop rest st2
  end.

Definition extname (p : jsstr) : jsstr :=
  let st := extname_loop (rev (indexed 0 p))
              {| startDot := -1; startPart := 0; end_ := -1;
                 matchedSlash := true; preDotState := 0 |} in
  if (startDot st =? -1) || (end_ st =? -1) || (preDotState st =? 0)
     || ((preDotState st =? 1) && (startDot st =? end_ st - 1)
         && (startDot st =? startPart st + 1))
  then []
  else firstn (Z.to_nat (end_ st - startDot st)) (skipn (Z.to_nat (startDot st)) p).

(** What a call into an external reader does: return a value or throw an
    error whose [message] is given. *)
Inductive outcome (A : Type) := Ok (a : A) | Throws (message : jsstr).
Arguments Ok {A} a.
Arguments Throws {A} message.

(** The external readers used on one uploaded file. *)
Record Readers := {
  readFileSync_utf8 : outcome jsstr;
  xlsx_readFile : outcome (list (jsstr * jsstr));  (* sheet name, [sheet_to_csv] *)
  mammoth_extractRawText : outcome jsstr;
  pdfParse : outcome jsstr
}.

Definition error_text (message : jsstr) : jsstr :=
  js "Erro ao ler arquivo: " ++ message.

Definition is_one_of (ext : jsstr) (l : list string) : bool :=
  existsb (fun e => jsstr_eqb ext (js e)) l.

Definition excel_text (originalName : jsstr) (sheets : list (jsstr * jsstr)) : jsstr :=
  fold_left (fun fullText sh =>
               fullText ++ nl ++ js "--- Planilha: " ++ fst sh ++ js " ---" ++ nl
               ++ snd sh)
            sheets (js "Arquivo Excel: " ++ originalName ++ nl).

Section Extract.
Variable toLowerCase : jsstr -> jsstr.

Definition extractText (rd : Readers) (originalName : jsstr) : jsstr :=
  let ext := toLowerCase (extname originalName) in
  if is_one_of ext [".csv"; ".txt"; ".json"]%string then
    match readFileSync_utf8 rd with Ok s => s | Throws m => error_text m end
  else if is_one_of ext [".xlsx"; ".xls"]%string then
    match xlsx_readFile rd with
    | Ok sheets => excel_text originalName sheets
    | Throws m => error_text m
    end
  else if is_one_of ext [".docx"]%string then
    match mammoth_extractRawText rd with Ok s => s | Throws m => error_text m end
  else if is_one_of ext [".pdf"]%string then
    match pdfParse rd with Ok s => s | Throws m => error_text m end
  else [].

End Extract.

Definition supported : list string :=
  [".csv"; ".txt"; ".json"; ".xlsx"; ".xls"; ".docx"; ".pdf"]%string.

(** The message of the error thrown by the reader that [extractText]
    selects for a (lower-cased) extension, if it throws. *)
Definition read_error (ext : jsstr) (rd : Readers) : option jsstr :=
  let thrown {A} (o : outcome A) := match o with Throws m => Some m | Ok _ => None end in
  if is_one_of ext [".csv"; ".txt"; ".json"]%string then thrown (readFileSync_utf8 rd)
  else if is_one_of ext [".xlsx"; ".xls"]%string then thrown (xlsx_readFile rd)
  else if is_one_of ext [".docx"]%string then thrown (mammoth_extractRawText rd)
  else if is_one_of ext [".pdf"]%string then thrown (pdfParse rd)
  else None.

End Extract.
Import Extract.

(** ** The HTTP handlers of src/server.js as one state machine *)
Module Server.

(** [req.file] as filled in by multer, which has already written the file
    to [path] under the upload directory. *)
Record UploadedFile := {
  originalname : jsstr;
  mimetype : jsstr;
  file_path : jsstr
}.

(** The parsed [metadata] form field ([{}] when absent or not JSON): each
    field is absent or a string, as the client sends it. *)
Record Metadata := {
  meta_category : option jsstr;
  meta_description : option jsstr;
  meta_source : option jsstr;
  meta_period : option jsstr;
  meta_caseName : option jsstr
}.

Definition no_metadata : Metadata := Build_Metadata None None None None None.

(** [metadata.x || dflt] *)
Definition or_default (v : option jsstr) (dflt : jsstr) : jsstr :=
  match v with
  | Some s => if jsstr_eqb s [] then dflt else s
  | None => dflt
  end.

(** [s.replace('.', '')]: the first occurrence only. *)
Fixpoint replace_first_dot (s : jsstr) : jsstr :=
  match s with
  | [] => []
  | c :: r => if c =? 46 then r else c :: replace_first_dot r
  end.

(** How the streaming completion behaves when it is called: the text of
    each chunk ([""] when [chunk.text] is empty or undefined), then either
    the end of the stream or an error thrown after those chunks. *)
Record UpstreamError := { err_status : option Z; err_message : option jsstr }.

Inductive Upstream :=
| UpDone (chunks : list jsstr)
| UpFails (chunks : list jsstr) (err : UpstreamError).

Inductive Request :=
| Upload (now : Z) (file : option UploadedFile) (metadata : Metadata)
         (rd : Readers) (uuid : jsstr)
| ListFiles
| DeleteFile (id : jsstr)
| Ask (now : Z) (apiKey : option jsstr) (message : jsstr)
      (history : list (jsstr * jsstr)) (up : Upstream).

(** What the client receives: a JSON body with a status, a plain-text body
    with a status, or a 200 [text/plain] stream (the list of [res.write]
    calls, then [res.end()]). *)
Inductive Response :=
| JsonResp (status : Z) (body : jsval)
| TextResp (status : Z) (body : jsstr)
| Stream (writes : list jsstr).

(** The NodeCache instance: key, value and expiry time in ms. *)
Definition Cache := list (jsstr * (jsstr * Z)).

Definition stdTTL_ms : Z := 3600 * 1000.

Fixpoint cache_find (k : jsstr) (c : Cache) : option (jsstr * Z) :=
  match c with
  | [] => None
  | (k', e) :: rest => if jsstr_eqb k k' then Some e else cache_find k rest
  end.

Definition cache_del (k : jsstr) (c : Cache) : Cache :=
  filter (fun e => negb (jsstr_eqb k (fst e))) c.

(** [appCache.get(key)]: an entry whose expiry is before [now] is deleted
    and reported as absent. *)
Definition cache_get (now : Z) (k : jsstr) (c : Cache) : option jsstr * Cache :=
  match cache_find k c with
  | Some (v, t) => if now <=? t then (Some v, c) else (None, cache_del k c)
  | None => (None, c)
  end.

Definition cache_set (now : Z) (k v : jsstr) (c : Cache) : Cache :=
  (k, (v, now + stdTTL_ms)) :: cache_del k c.

(** Process state: the collection in db.json, the files in the upload
    directory, the cache, and two counters observing writes of db.json and
    calls of [generateContentStream]. *)
Record Server := {
  files : list FileRecord;
  disk : list jsstr;
  cache : Cache;
  db_writes : nat;
  upstream_calls : nat
}.

Definition file_obj (f : FileRecord) : list (jsstr * jsval) :=
  [(js "id", JStr (id f)); (js "name", JStr (name f)); (js "path", JStr (path f));
   (js "type", JStr (type f)); (js "content", JStr (content f));
   (js "timestamp", JNum (timestamp f) 0); (js "category", JStr (category f));
   (js "description", JStr (description f)); (js "source", JStr (source f));
   (js "period", JStr (period f)); (js "caseName", JStr (caseName f))].

(** [const { content, ...rest } = f] *)
Definition without_content (o : list (jsstr * jsval)) : list (jsstr * jsval) :=
  filter (fun kv => negb (jsstr_eqb (fst kv) (js "content"))) o.

Definition success : jsval := JObj [(js "success", JBool true)].

(** [db.files.findIndex(f => f.id === id)] and [splice(i, 1)]. *)
Fixpoint find_file (i : jsstr) (l : list FileRecord) : option FileRecord :=
  match l with
  | [] => None
  | f :: r => if jsstr_eqb (id f) i then Some f else find_file i r
  end.

Fixpoint remove_file (i : jsstr) (l : list FileRecord) : list FileRecord :=
  match l with
  | [] => []
  | f :: r => if jsstr_eqb (id f) i then r else f :: remove_file i r
  end.

Fixpoint dec_digits (fuel : nat) (n : Z) (acc : jsstr) : jsstr :=
  match fuel with
  | O => acc
  | S fuel' =>
      let acc' := (48 + n mod 10) :: acc in
      if n / 10 =? 0 then acc' else dec_digits fuel' (n / 10) acc'
  end.

(** [JSON.stringify(n)] for a natural number [n]. *)
Definition number_string (n : Z) : jsstr :=
  dec_digits (Z.to_nat (Z.log2 n + 1)) n [].

(** [`ask_${message}_${JSON.stringify(history.length)}`] *)
Definition cacheKey (message : jsstr) (history : list (jsstr * jsstr)) : jsstr :=
  js "ask_" ++ message ++ js "_" ++ number_string (zlen history).

Definition RATE_LIMIT_TEXT : jsstr :=
  [10; 10; 9888; 65039] ++ js " *O sistema est" ++ [225]
  ++ js " com alto volume de dados (Limite de Cota Atingido). Por favor, aguarde 30 segundos e tente novamente com uma pergunta mais espec"
  ++ [237] ++ js "fica.*".

Definition ERROR_TEXT : jsstr :=
  nl ++ nl ++ js "[Sistema] Erro ao processar resposta da IA. Verifique logs do servidor.".

(** [error.status === 429 || error.message?.includes("429")
    || error.message?.includes("quota")] *)
Definition is_rate_limit (e : UpstreamError) : bool :=
  match err_status e with Some st => st =? 429 | None => false end
  || match err_message e with
     | Some m => includes m (js "429") || includes m (js "quota")
     | None => false
     end.

Definition apology (e : UpstreamError) : jsstr :=
  if is_rate_limit e then RATE_LIMIT_TEXT else ERROR_TEXT.

(** [if (chunkText) { fullText += chunkText; res.write(chunkText); }] *)
Definition nonempty_chunks (cs : list jsstr) : list jsstr :=
  filter (fun c => negb (jsstr_eqb c [])) cs.

Section Handlers.
Variable toLowerCase : jsstr -> jsstr.

Definition upload (s : Server) (now : Z) (file : option UploadedFile)
    (metadata : Metadata) (rd : Readers) (uuid : jsstr) : Response * Server :=
  match file with
  | None => (TextResp 400 (js "No file uploaded."), s)
  | Some f =>
      let textContent := extractText toLowerCase rd (originalname f) in
      let newFile :=
        {| id := uuid; name := originalname f; path := file_path f;
           type := replace_first_dot (extname (originalname f));
           content := textContent; timestamp := now;
           category := or_default (meta_category metadata) (js "Geral");
           description := or_default (meta_description metadata) [];
           source := or_default (meta_source metadata) [];
           period := or_default (meta_period metadata) [];
           caseName := or_default (meta_caseName metadata) [] |} in
      (JsonResp 200 (JObj [(js "success", JBool true);
                           (js "file", JObj (without_content (file_obj newFile)))]),
       {| files := files s ++ [newFile];
          disk := file_path f :: disk s;
          cache := [];
          db_writes := S (db_writes s);
          upstream_calls := upstream_calls s |})
  end.

Definition list_files (s : Server) : Response :=
  JsonResp 200 (JArr (map (fun f => JObj (without_content (file_obj f))) (files s))).

Definition delete (s : Server) (i : jsstr) : Response * Server :=
  match find_file i (files s) with
  | Some f =>
      (JsonResp 200 success,
       {| files := remove_file i (files s);
          disk := if existsb (jsstr_eqb (path f)) (disk s)
                  then filter (fun p => negb (jsstr_eqb (path f) p)) (disk s)
                  else disk s;
          cache := [];
          db_writes := S (db_writes s);
          upstream_calls := upstream_calls s |})
  | None => (JsonResp 200 success, s)
  end.

(** The part of the handler after a cache miss: one call of
    [generateContentStream], the chunks relayed, the cache filled when the
    accumulated text is nonempty, or the apology written in the [catch]. *)
Definition ask_upstream (s : Server) (c1 : Cache) (now : Z) (key : jsstr)
    (up : Upstream) : Response * Server :=
  match up with
  | UpDone cs =>
      let ws := nonempty_chunks cs in
      let fullText := List.concat ws in
      (Stream ws,
       {| files := files s; disk := disk s;
          cache := if 0 <? zlen fullText then cache_set now key fullText c1 else c1;
          db_writes := db_writes s; upstream_calls := S (upstream_calls s) |})
  | UpFails cs e =>
      (Stream (nonempty_chunks cs ++ [apology e]),
       {| files := files s; disk := disk s; cache := c1;
          db_writes := db_writes s; upstream_calls := S (upstream_calls s) |})
  end.

Definition ask (s : Server) (now : Z) (apiKey : option jsstr) (message : jsstr)
    (history : list (jsstr * jsstr)) (up : Upstream) : Response * Server :=
  match apiKey with
  | None | Some [] =>
      (JsonResp 500 (JObj [(js "error", JStr (js "Server API Key missing"))]), s)
  | Some _ =>
      let key := cacheKey message history in
      let (cachedResponse, c1) := cache_get now key (cache s) in
      match cachedResponse with
      | Some v =>
          if negb (jsstr_eqb v [])
          then (Stream [v],
                {| files := files s; disk := disk s; cache := c1;
                   db_writes := db_writes s; upstream_calls := upstream_calls s |})
          else ask_upstream s c1 now key up   (* "" is falsy *)
      | None => ask_upstream s c1 now key up
      end
  end.

Definition step (s : Server) (r : Request) : Response * Server :=
  match r with
  | Upload now f m rd uuid => upload s now f m rd uuid
  | ListFiles => (list_files s, s)
  | DeleteFile i => delete s i
  | Ask now k msg h up => ask s now k msg h up
  end.

Fixpoint run (s : Server) (rs : list Request) : list Response * Server :=
  match rs with
  | [] => ([], s)
  | r :: rest =>
      let (resp, s1) := step s r in
      let (resps, s2) := run s1 rest in
      (resp :: resps, s2)
  end.

End Handlers.

(** The answer text a client reads from a response. *)
Definition resp_text (r : Response) : jsstr :=
  match r with
  | Stream ws => List.concat ws
  | TextResp _ b => b
  | JsonResp _ _ => []
  end.

(** An [/api/ask] request with a fixed key and message, from its time,
    history and upstream outcome. *)
Definition ask_req (key message : jsstr) (x : Z * list (jsstr * jsstr) * Upstream) : Request :=
  Ask (fst (fst x)) (Some key) message (snd (fst x)) (snd x).

End Server.
Import Server.

(** ** [JSON.parse] on a string of code units; [None] is a SyntaxError. *)
Module JsonParse.

Definition is_ws (c : Z) : bool := (c =? 32) || (c =? 9) || (c =? 10) || (c =? 13).

Fixpoint skip_ws (s : jsstr) : jsstr :=
  match s with
  | c :: r => if is_ws c then skip_ws r else s
  | [] => []
  end.

Definition is_digit (c : Z) : bool := (48 <=? c) && (c <=? 57).

(** The longest prefix of decimal digits, as digit values. *)
Fixpoint digits (s : jsstr) : list Z * jsstr :=
  match s with
  | c :: r =>
      if is_digit c then let (ds, rest) := digits r in ((c - 48) :: ds, rest)
      else ([], s)
  | [] => ([], [])
  end.

Definition digits_value (ds : list Z) : Z := fold_left (fun acc d => acc * 10 + d) ds 0.

Definition hex_value (c : Z) : option Z :=
  if is_digit c then Some (c - 48)
  else if (97 <=? c) && (c <=? 102) then Some (c - 87)
  else if (65 <=? c) && (c <=? 70) then Some (c - 55)
  else None.

(** The body of a string literal after its opening quote. *)
Fixpoint parse_string_body (s : jsstr) : option (jsstr * jsstr) :=
  match s with
  | [] => None
  | 34 :: r => Some ([], r)
  | 92 :: 117 :: a :: b :: c :: d :: r =>
      match hex_value a, hex_value b, hex_value c, hex_value d with
      | Some x, Some y, Some z, Some w =>
          match parse_string_body r with
          | Some (str, rest) => Some ((((x * 16 + y) * 16 + z) * 16 + w) :: str, rest)
          | None => None
          end
      | _, _, _, _ => None
      end
  | 92 :: e :: r =>
      let unit :=
        if e =? 34 then Some 34 else if e =? 92 then Some 92
        else if e =? 47 then Some 47 else if e =? 98 then Some 8
        else if e =? 102 then Some 12 else if e =? 110 then Some 10
        else if e =? 114 then Some 13 else if e =? 116 then Some 9 else None in
      match unit, parse_string_body r with
      | Some u, Some (str, rest) => Some (u :: str, rest)
      | _, _ => None
      end
  | c :: r =>
      if c <? 32 then None
      else match parse_string_body r with
           | Some (str, rest) => Some (c :: str, rest)
           | None => None
           end
  end.

(** [-? (0 | [1-9][0-9]* ) (. [0-9]+)? ([eE] [+-]? [0-9]+)?] *)
Definition parse_number (s : jsstr) : option (jsval * jsstr) :=
  let '(neg, s1) := match s with 45 :: r => (true, r) | _ => (false, s) end in
  let int_part :=
    match s1 with
    | 48 :: r => Some ([0], r)
    | c :: _ => if is_digit c then Some (digits s1) else None
    | [] => None
    end in
  match int_part with
  | None => None
  | Some (ids, s2) =>
      let frac :=
        match s2 with
        | 46 :: r => let (fds, s3) := digits r in
                     match fds with [] => None | _ => Some (fds, s3) end
        | _ => Some ([], s2)
        end in
      match frac with
      | None => None
      | Some (fds, s3) =>
          let expo :=
            match s3 with
            | e :: r =>
                if (e =? 101) || (e =? 69) then
                  let '(eneg, r1) := match r with
                                     | 45 :: r' => (true, r') | 43 :: r' => (false, r')
                                     | _ => (false, r) end in
                  let (eds, s4) := digits r1 in
                  match eds with
                  | [] => None
                  | _ => Some (if eneg then - digits_value eds else digits_value eds, s4)
                  end
                else Some (0, s3)
            | [] => Some (0, s3)
            end in
          match expo with
          | None => None
          | Some (ex, s4) =>
              let m := digits_value (ids ++ fds) in
              Some (JNum (if neg then - m else m) (ex - zlen fds), s4)
          end
      end
  end.

(** Recursive descent; [fuel] bounds the depth of the calls.  Every call
    but an element's value starts past a unit its caller consumed, so
    [json_parse] gives twice the length of the input plus two, which no
    input exhausts. *)
Fixpoint parse_value (fuel : nat) (s : jsstr) : option (jsval * jsstr) :=
  match fuel with
  | O => None
  | S fuel' =>
      match skip_ws s with
      | 123 :: r =>
          match skip_ws r with
          | 125 :: r' => Some (JObj [], r')
          | _ => parse_members fuel' [] r
          end
      | 91 :: r =>
          match skip_ws r with
          | 93 :: r' => Some (JArr [], r')
          | _ => parse_elements fuel' [] r
          end
      | 34 :: r =>
          match parse_string_body r with
          | Some (str, rest) => Some (JStr str, rest)
          | None => None
          end
      | 116 :: 114 :: 117 :: 101 :: r => Some (JBool true, r)
      | 102 :: 97 :: 108 :: 115 :: 101 :: r => Some (JBool false, r)
      | 110 :: 117 :: 108 :: 108 :: r => Some (JNull, r)
      | s' => parse_number s'
      end
  end
with parse_members (fuel : nat) (acc : list (jsstr * jsval)) (s : jsstr)
  : option (jsval * jsstr) :=
  match fuel with
  | O => None
  | S fuel' =>
      match skip_ws s with
      | 34 :: r =>
          match parse_string_body r with
          | Some (k, r1) =>
              match skip_ws r1 with
              | 58 :: r2 =>
                  match parse_value fuel' r2 with
                  | Some (v, r3) =>
                      match skip_ws r3 with
                      | 44 :: r4 => parse_members fuel' (acc ++ [(k, v)]) r4
                      | 125 :: r4 => Some (JObj (acc ++ [(k, v)]), r4)
                      | _ => None
                      end
                  | None => None
                  end
              | _ => None
              end
          | None => None
          end
      | _ => None
      end
  end
with parse_elements (fuel : nat) (acc : list jsval) (s : jsstr)
  : option (jsval * jsstr) :=
  match fuel with
  | O => None
  | S fuel' =>
      match parse_value fuel' s with
      | Some (v, r1) =>
          match skip_ws r1 with
          | 44 :: r2 => parse_elements fuel' (acc ++ [v]) r2
          | 93 :: r2 => Some (JArr (acc ++ [v]), r2)
          | _ => None
          end
      | None => None
      end
  end.

Definition json_parse (s : jsstr) : option jsval :=
  match parse_value (2 * List.length s + 2) s with
  | Some (v, rest) => match skip_ws rest with [] => Some v | _ => None end
  | None => None
  end.

End JsonParse.
Import JsonParse.

(** ** [JSON.stringify(value, null, gap)] on a string of code units *)
Module JsonStringify.

Definition hex_digit (d : Z) : Z := if d <? 10 then 48 + d else 87 + d.

(** [UnicodeEscape(C)]: "\u" and four lower-case hexadecimal digits. *)
Definition unicode_escape (c : Z) : jsstr :=
  [92; 117; hex_digit (c / 4096 mod 16); hex_digit (c / 256 mod 16);
   hex_digit (c / 16 mod 16); hex_digit (c mod 16)].

Definition is_lead (c : Z) : bool := (55296 <=? c) && (c <=? 56319).
Definition is_trail (c : Z) : bool := (56320 <=? c) && (c <=? 57343).

(** One code point of [QuoteJSONString] that is not a surrogate pair: the
    short escapes of its table, [UnicodeEscape] below U+0020 and for a lone
    surrogate, the unit itself otherwise. *)
Definition escape_unit (c : Z) : jsstr :=
  if c =? 8 then [92; 98] else if c =? 9 then [92; 116]
  else if c =? 10 then [92; 110] else if c =? 12 then [92; 102]
  else if c =? 13 then [92; 114] else if c =? 34 then [92; 34]
  else if c =? 92 then [92; 92]
  else if (c <? 32) || is_lead c || is_trail c then unicode_escape c
  else [c].

(** [QuoteJSONString] without its quotes: a leading surrogate followed by a
    trailing one is a code point above U+FFFF and is copied. *)
Fixpoint quote_units (s : jsstr) : jsstr :=
  match s with
  | [] => []
  | c :: r =>
      if is_lead c then
        match r with
        | d :: r' => if is_trail d then c :: d :: quote_units r'
                     else escape_unit c ++ quote_units r
        | [] => escape_unit c
        end
      else escape_unit c ++ quote_units r
  end.

Definition quote (s : jsstr) : jsstr := 34 :: quote_units s ++ [34].

(** [Number::toString] of the number [m * 10^e], for the integers up to
    2^53 in magnitude written with exponent 0 (such as [Date.now()]);
    [None] for the numbers this model does not print. *)
Definition number_text (m e : Z) : option jsstr :=
  if (e =? 0) && (Z.abs m <=? 2 ^ 53)
  then Some (if m <? 0 then 45 :: number_string (- m) else number_string m)
  else None.

Fixpoint all_some {A} (l : list (option A)) : option (list A) :=
  match l with
  | [] => Some []
  | Some x :: r => option_map (cons x) (all_some r)
  | None :: _ => None
  end.

Fixpoint join (sep : jsstr) (l : list jsstr) : jsstr :=
  match l with
  | [] => []
  | [x] => x
  | x :: r => x ++ sep ++ join sep r
  end.

(** The last steps of [SerializeJSONObject] and [SerializeJSONArray]:
    [stepback] is the indentation of the enclosing value. *)
Definition wrap (op cl : Z) (gap stepback : jsstr) (partial : list jsstr) : jsstr :=
  match partial with
  | [] => [op; cl]
  | _ :: _ =>
      match gap with
      | [] => op :: join [44] partial ++ [cl]
      | _ :: _ =>
          let indent := stepback ++ gap in
          op :: nl ++ indent ++ join ([44] ++ nl ++ indent) partial
             ++ nl ++ stepback ++ [cl]
      end
  end.

Fixpoint ser (gap stepback : jsstr) (v : jsval) : option jsstr :=
  match v with
  | JNull => Some (js "null")
  | JBool true => Some (js "true")
  | JBool false => Some (js "false")
  | JNum m e => number_text m e
  | JStr s => Some (quote s)
  | JArr items =>
      option_map (wrap 91 93 gap stepback)
        (all_some (map (ser gap (stepback ++ gap)) items))
  | JObj fields =>
      option_map (wrap 123 125 gap stepback)
        (all_some (map (fun kv =>
           option_map (fun t => quote (fst kv) ++ [58]
                                ++ match gap with [] => [] | _ :: _ => [32] end ++ t)
                      (ser gap (stepback ++ gap) (snd kv))) fields))
  end.

(** [JSON.stringify(value, null, gap)] *)
Definition stringify (gap : jsstr) (v : jsval) : option jsstr := ser gap [] v.

(** The values [ser] prints: numbers of [number_text], and strings (keys
    included) of code units. *)
Definition units_okb (s : jsstr) : bool := forallb (fun c => (0 <=? c) && (c <? 65536)) s.

Fixpoint printable (v : jsval) : bool :=
  match v with
  | JNull | JBool _ => true
  | JNum m e => (e =? 0) && (Z.abs m <=? 2 ^ 53)
  | JStr s => units_okb s
  | JArr items => forallb printable items
  | JObj fields => forallb (fun kv => units_okb (fst kv) && printable (snd kv)) fields
  end.

(** The nesting of a value, which bounds the fuel [parse_value] uses on it. *)
Fixpoint jsize (v : jsval) : nat :=
  match v with
  | JArr items => S (list_sum (map (fun x => S (jsize x)) items))
  | JObj fields => S (list_sum (map (fun kv => S (jsize (snd kv))) fields))
  | _ => 1
  end.

End JsonStringify.
Import JsonStringify.

(** ** The db.json file: [readDb], [writeDb] and [initializeDb] *)
Module DbFile.

Definition empty_db : jsval := JObj [(js "files", JArr [])].

(** [readDb]: [file] is the text of db.json, [None] when it does not exist
    or cannot be read; a text that is not JSON is caught as well. *)
Definition readDb (file : option jsstr) : jsval :=
  match file with
  | None => empty_db
  | Some t => match json_parse t with Some v => v | None => empty_db end
  end.

(** The text [writeDb(data)] writes: [JSON.stringify(data, null, 2)]. *)
Definition db_text (data : jsval) : option jsstr := stringify (js "  ") data.

(** The collection as the JSON object [{ files: [...] }] of db.json. *)
Definition db_json (fs : list FileRecord) : jsval :=
  JObj [(js "files", JArr (map (fun f => JObj (file_obj f)) fs))].

End DbFile.
Import DbFile.

(** ** Multer's disk storage: the stored file name (src/server.js, lines 68-72) *)
Module Multer.

(** The code units [/[^a-zA-Z0-9.-]/] does not match. *)
Definition safe_unit (c : Z) : bool :=
  ((65 <=? c) && (c <=? 90)) || ((97 <=? c) && (c <=? 122))
  || ((48 <=? c) && (c <=? 57)) || (c =? 46) || (c =? 45).

(** [file.originalname.replace(/[^a-zA-Z0-9.-]/g, '_')]: without the [u]
    flag the class is matched against each code unit. *)
Definition safeName (originalname : jsstr) : jsstr :=
  map (fun c => if safe_unit c then c else 95) originalname.

(** [`${Date.now()}-${safeName}`] *)
Definition filename (now : Z) (originalname : jsstr) : jsstr :=
  number_string now ++ [45] ++ safeName originalname.

End Multer.

(** ** The metadata form field of [/api/upload] (src/server.js, lines 151-173) *)
Module UploadRoute.

(** What the handler gets out of [metadata]: the five fields as [upload]
    reads them; [MetaNull] when [JSON.parse] returned [null], so that
    [metadata.category] throws a TypeError; [MetaUnmodelled] when a field
    is a truthy value other than a string, which [upload] does not model. *)
Inductive MetaParse :=
| MetaOk (m : Metadata)
| MetaNull
| MetaUnmodelled.

(** [metadata.k]: [Some None] for a falsy value (kept out by [|| dflt]),
    [Some (Some s)] for a string. *)
Definition meta_field (fs : list (jsstr * jsval)) (k : jsstr) : option (option jsstr) :=
  let v := lookup_field k fs in
  if truthy v then
    match v with Some (JStr s) => Some (Some s) | _ => None end
  else Some None.

(** [let metadata = {}; try { metadata = JSON.parse(req.body.metadata || '{}') }
    catch (e) {}], then the property reads of the handler; a primitive or
    an array has none of the five properties. *)
Definition metadata_of (body : option jsstr) : MetaParse :=
  let t := match body with
           | Some t => if jsstr_eqb t [] then js "{}" else t
           | None => js "{}"
           end in
  match json_parse t with
  | None => MetaOk no_metadata
  | Some JNull => MetaNull
  | Some (JObj fs) =>
      match meta_field fs (js "category"), meta_field fs (js "description"),
            meta_field fs (js "source"), meta_field fs (js "period"),
            meta_field fs (js "caseName") with
      | Some c, Some d, Some so, Some pe, Some ca =>
          MetaOk (Build_Metadata c d so pe ca)
      | _, _, _, _, _ => MetaUnmodelled
      end
  | Some _ => MetaOk no_metadata
  end.

(** The whole route: multer has stored the file before the handler runs;
    the TypeError of a [null] metadata is caught by the handler's [try]
    and answered with a 500, after the file was stored and before db.json
    is read. [None] when the metadata is outside the model. *)
Definition upload_request (toLowerCase : jsstr -> jsstr) (s : Server) (now : Z)
    (file : option UploadedFile) (body : option jsstr) (rd : Readers) (uuid : jsstr)
    : option (Response * Server) :=
  match file with
  | None => Some (TextResp 400 (js "No file uploaded."), s)
  | Some f =>
      match metadata_of body with
      | MetaOk m => Some (upload toLowerCase s now file m rd uuid)
      | MetaNull =>
          Some (JsonResp 500 (JObj [(js "error", JStr (js "Processing failed"))]),
                {| files := files s; disk := file_path f :: disk s; cache := cache s;
                   db_writes := db_writes s; upstream_calls := upstream_calls s |})
      | MetaUnmodelled => None
      end
  end.

End UploadRoute.

(** ** The chat history sent to the model (src/unnamed/part_000, line 15;
    src/server.js, lines 313-326) *)
Module Chat.

(** A [Message] of the client; an absent [isLoading] is [false]. *)
Record Message := { role : jsstr; text : jsstr; isLoading : bool }.

(** [history.filter(m => m.role !== 'model' || !m.isLoading)] *)
Definition client_history (history : list Message) : list Message :=
  filter (fun m => negb (jsstr_eqb (role m) (js "model")) || negb (isLoading m)) history.

(** [contents: [...chatHistory, { role: 'user', parts: [{ text: message }] }]],
    a content being its role and the text of its single part. *)
Definition contents (history : list Message) (message : jsstr) : list (jsstr * jsstr) :=
  map (fun h => (role h, text h))
      (filter (fun h => jsstr_eqb (role h) (js "user") || jsstr_eqb (role h) (js "model"))
              history)
  ++ [(js "user", message)].

End Chat.

(** ** Predicates used by the invariants *)
Module Invariants.

(** A text [JSON.stringify] writes as is: code units, and numbers that are
    safe integers. *)
Definition storable (f : FileRecord) : bool :=
  forallb units_okb [id f; name f; path f; type f; content f; category f;
                     description f; source f; period f; caseName f]
  && (Z.abs (timestamp f) <=? 2 ^ 53).

(** Ids are unique, paths are unique, and every record's file is on disk. *)
Definition consistent (s : Server) : Prop :=
  NoDup (map id (files s)) /\ NoDup (map path (files s))
  /\ Forall (fun f => In (path f) (disk s)) (files s).

(** [crypto.randomUUID()] gives an id not in the collection, and multer a
    path not on disk. *)
Definition fresh (s : Server) (r : Request) : Prop :=
  match r with
  | Upload _ (Some f) _ _ uuid => ~ In uuid (map id (files s)) /\ ~ In (file_path f) (disk s)
  | _ => True
  end.

Fixpoint fresh_run (toLowerCase : jsstr -> jsstr) (s : Server) (rs : list Request) : Prop :=
  match rs with
  | [] => True
  | r :: rest => fresh s r /\ fresh_run toLowerCase (snd (step toLowerCase s r)) rest
  end.

Definition is_ask (r : Request) : bool :=
  match r with Ask _ _ _ _ _ => true | _ => false end.

End Invariants.
Import Invariants.

(** ** Chart Extractor: [streamResponse] post-processing (src/unnamed/part_000,
    lines 34-54) *)
Module Chart.

(** [fullText.match(/\{[\s\S]*\}/)]: the leftmost match starts at the first
    "{" and, [[\s\S]*] being greedy, ends at the last "}" after it; when
    that first "{" has no "}" after it, no later "{" has one either. *)
Fixpoint from_first_brace (s : jsstr) : jsstr :=
  match s with
  | [] => []
  | c :: r => if c =? 123 then s else from_first_brace r
  end.

(** The prefix of [s] up to and including its last "}". *)
Fixpoint upto_last_close (s : jsstr) : option jsstr :=
  match s with
  | [] => None
  | c :: r =>
      match upto_last_close r with
      | Some t => Some (c :: t)
      | None => if c =? 125 then Some [c] else None
      end
  end.

Definition json_match (s : jsstr) : option jsstr :=
  match from_first_brace s with
  | [] => None
  | t => upto_last_close t
  end.

(** [\s] of a JavaScript regular expression. *)
Definition is_js_space (c : Z) : bool :=
  existsb (Z.eqb c) [9; 10; 11; 12; 13; 32; 160; 5760; 8232; 8233; 8239; 8287;
                     12288; 65279]
  || ((8192 <=? c) && (c <=? 8202)).

Fixpoint drop_spaces (s : jsstr) : jsstr :=
  match s with
  | c :: r => if is_js_space c then drop_spaces r else s
  | [] => []
  end.

(** [s.replace(new RegExp(pat + "\\s*", "g"), "")] for a literal [pat]. *)
Fixpoint strip_pattern (fuel : nat) (pat s : jsstr) : jsstr :=
  match fuel with
  | O => s
  | S fuel' =>
      match s with
      | [] => []
      | c :: r =>
          if starts_with pat s
          then strip_pattern fuel' pat (drop_spaces (skipn (List.length pat) s))
          else c :: strip_pattern fuel' pat r
      end
  end.

Definition FENCE : jsstr := js "```".

(** [.replace(/```json\s*/g, "").replace(/```\s*/g, "")] *)
Definition clean_json (m : jsstr) : jsstr :=
  let s1 := strip_pattern (List.length m) (js "```json") m in
  strip_pattern (List.length s1) FENCE s1.

Definition CHART_PLACEHOLDER : jsstr := js "Gr" ++ [225] ++ js "fico gerado:".

(** [{ text, chartData? }] *)
Record ChartResult := { text : jsval; chartData : option jsval }.

Definition plain (fullText : jsstr) : ChartResult :=
  {| text := JStr fullText; chartData := None |}.

Definition extract_chart (fullText : jsstr) : ChartResult :=
  match json_match fullText with
  | Some m =>
      match json_parse (clean_json m) with
      | Some parsed =>
          if truthy (get parsed (js "chart")) then
            {| text := if truthy (get parsed (js "message"))
                       then match get parsed (js "message") with
                            | Some v => v | None => JStr fullText end
                       else if includes fullText FENCE then JStr CHART_PLACEHOLDER
                       else JStr fullText;
               chartData := get parsed (js "chart") |}
          else plain fullText
      | None => plain fullText   (* the SyntaxError is caught *)
      end
  | None => plain fullText
  end.

End Chart.
Import Chart.

(** ** The scoring rule in the words of the specification (C2), to be
    compared with [Selector.score_of]: the query is split on whitespace,
    tokens shorter than 4 units are dropped, the rest lower-cased, and each
    adds 10 when it occurs in the lower-cased concatenation of the name,
    caseName, category and description. *)
Module SpecScore.
Section SpecScore.
Variable toLowerCase : jsstr -> jsstr.

Fixpoint split_by (sep : Z -> bool) (s : jsstr) : list jsstr :=
  match s with
  | [] => [[]]
  | c :: r =>
      if sep c then [] :: split_by sep r
      else match split_by sep r with
           | w :: ws => (c :: w) :: ws
           | [] => [[c]]
           end
  end.

Definition spec_tokens (query : jsstr) : list jsstr :=
  map toLowerCase (filter (fun w => 4 <=? zlen w) (split_by Chart.is_js_space query)).

Definition spec_meta (f : FileRecord) : jsstr :=
  toLowerCase (name f ++ caseName f ++ category f ++ description f).

Definition spec_score (query : jsstr) (f : FileRecord) : Z :=
  10 * zlen (filter (fun k => includes (spec_meta f) k) (spec_tokens query)).

End SpecScore.
End SpecScore.

(** ** Concrete inputs *)
Module Fixtures.

Definition doc (i nm cs : jsstr) : FileRecord :=
  {| id := i; name := nm; path := js "uploads/1-" ++ nm; type := js "csv";
     content := js "ano,valor" ++ nl ++ js "2020,10"; timestamp := 1;
     category := js "Geral"; description := []; source := []; period := [];
     caseName := cs |}.

(** A document called "ab" with indicator "cd". *)
Definition doc_ab_cd : FileRecord := doc (js "1") (js "ab") (js "cd").

(** A document called "abcd". *)
Definition doc_abcd : FileRecord := doc (js "2") (js "abcd") [].

(** A document whose name is two capitals I with dot above (U+0130). *)
Definition doc_dotted : FileRecord := doc (js "3") [304; 304] [].

Definition doc_pop : FileRecord := doc (js "4") (js "populacao.csv") (js "Populacao").

(** A server holding one document and one cached answer. *)
Definition server_one_cached : Server :=
  {| files := [doc_pop]; disk := [path doc_pop];
     cache := [(cacheKey (js "populacao") [], (js "Resposta", 3600000))];
     db_writes := 1; upstream_calls := 1 |}.

(** Readers for a file that every library fails to read. *)
Definition broken_readers : Readers :=
  {| readFileSync_utf8 := Throws (js "EACCES");
     xlsx_readFile := Throws (js "Unsupported file");
     mammoth_extractRawText := Throws (js "Could not find file in options");
     pdfParse := Throws (js "Invalid PDF structure") |}.

(** A server holding one document and an empty cache, and two request
    sequences on it: identical questions around the deletion of an id that
    is not stored, and identical questions whose first upstream call fails. *)
Definition server_fresh : Server :=
  {| files := [doc_pop]; disk := [path doc_pop]; cache := [];
     db_writes := 1; upstream_calls := 0 |}.

Definition too_many_requests : UpstreamError :=
  {| err_status := Some 429; err_message := None |}.

Definition asks_around_absent_delete : list Request :=
  [Ask 0 (Some (js "k")) (js "populacao") [] (UpDone [js "Resposta"]);
   DeleteFile (js "nao-existe");
   Ask 1 (Some (js "k")) (js "populacao") [] (UpDone [js "Outra"])].

Definition asks_after_failure : list Request :=
  [Ask 0 (Some (js "k")) (js "populacao") [] (UpFails [] too_many_requests);
   Ask 1 (Some (js "k")) (js "populacao") [] (UpDone [js "Resposta"])].

(** Model answers for the Chart Extractor, written with ' for the double
    quote. *)
Definition dq (t : string) : jsstr := map (fun c => if c =? 39 then 34 else c) (js t).

Definition answer_empty_message : jsstr := dq "{'chart':{'type':'bar'},'message':''}".

Definition answer_zero_chart : jsstr := dq "{'chart':0}".

Definition answer_fenced : jsstr :=
  js "Resultado: ```json" ++ nl ++ dq "{'chart':{'type':'bar'}}" ++ nl ++ js "```".

End Fixtures.
Import Fixtures.

(** ** More fixtures: an upload and a request sequence *)
Module UploadFixtures.

(** An upload of "dados.csv" that multer stored under its upload path. *)
Definition dados : UploadedFile :=
  {| originalname := js "dados.csv"; mimetype := js "text/csv";
     file_path := js "uploads/5-dados.csv" |}.

(** An upload, then the deletion of the stored document "4". *)
Definition upload_then_delete : list Request :=
  [Upload 5 (Some dados) no_metadata broken_readers (js "u5"); DeleteFile (js "4")].

End UploadFixtures.
Import UploadFixtures.

(** ** Predicates of the JSON round trip and of the stored file names *)
Module JsonPreds.

(** A list of decimal digit values. *)
Definition is_dec (ds : list Z) : Prop := Forall (fun x => 0 <= x <= 9) ds.

(** What may follow a number in the output of [ser]. *)
Definition delim (rest : jsstr) : Prop :=
  match rest with [] => True | c :: _ => In c [44; 125; 93; 10; 32; 9; 13] end.

(** A unit put in front of the string a string parse returned. *)
Definition consr (c : Z) (o : option (jsstr * jsstr)) : option (jsstr * jsstr) :=
  match o with Some (str, rest) => Some (c :: str, rest) | None => None end.

(** Every element is a UTF-16 code unit. *)
Definition units_ok (s : jsstr) : Prop := Forall (fun c => 0 <= c < 65536) s.

(** JSON whitespace. *)
Definition ws (w : jsstr) : Prop := Forall (fun c => is_ws c = true) w.

(** The units a JSON value may start with. *)
Definition value_head (c : Z) : Prop :=
  c = 123 \/ c = 91 \/ c = 34 \/ c = 110 \/ c = 116 \/ c = 102 \/ c = 45 \/ 48 <= c <= 57.

(** An indentation made of spaces, as [JSON.stringify] with a numeric gap. *)
Definition spaces (g : jsstr) : Prop := Forall (fun c => c = 32) g.

(** A unit of a sanitised file name: [A-Za-z0-9.-] or the "_" put in place
    of any other. *)
Definition kept (c : Z) : Prop := Multer.safe_unit c = true \/ c = 95.

End JsonPreds.
Import JsonPreds.

(** ** The scan of [path.extname] and its invariant *)
Module ExtScan.
Section Scan.
Variable p : jsstr.

(** The unit at index [j] of [p]. *)
Definition unit_at (j : Z) : Z := nth (Z.to_nat j) p 0.
(** No "." and no "/" strictly between [lo] and [hi]. *)
Definition clear_range (lo hi : Z) : Prop := forall j, lo < j < hi -> unit_at j <> 46 /\ unit_at j <> 47.

(** What holds after the units from index [n] on have been scanned. *)
Definition J (n : Z) (st : ext_scan) : Prop :=
  (end_ st = -1 \/ (n < end_ st <= zlen p /\ matchedSlash st = false))
  /\ (startDot st = -1 -> end_ st <> -1 -> clear_range (n - 1) (end_ st))
  /\ (startDot st <> -1 -> end_ st <> -1 /\ n <= startDot st < end_ st
                          /\ unit_at (startDot st) = 46 /\ clear_range (startDot st) (end_ st)).

(** What holds when the scan stops. *)
Definition Final (st : ext_scan) : Prop :=
  startDot st <> -1 -> end_ st <> -1 /\ 0 <= startDot st < end_ st /\ end_ st <= zlen p
                     /\ unit_at (startDot st) = 46 /\ clear_range (startDot st) (end_ st).
End Scan.

End ExtScan.
Import ExtScan.

(** * Properties *)

(** ** Helper lemmas on strings *)
Module StrFacts.

Lemma zlen_app {A} (a b : list A) : zlen (a ++ b) = zlen a + zlen b.
Proof. unfold zlen. rewrite length_app. lia. Qed.

Lemma zlen_nonneg {A} (a : list A) : 0 <= zlen a.
Proof. unfold zlen. lia. Qed.

Lemma zlen_cons {A} (x : A) (l : list A) : zlen (x :: l) = 1 + zlen l.
Proof. unfold zlen. cbn [List.length]. lia. Qed.

Lemma zlen_nil {A} : zlen (@nil A) = 0.
Proof. reflexivity. Qed.

Lemma take_prefix {A} (n : Z) (l : list A) : exists rest, l = take n l ++ rest.
Proof.
  revert n; induction l as [|x r IH]; intro n; simpl.
  - exists []. reflexivity.
  - destruct (n <=? 0).
    + exists (x :: r). reflexivity.
    + destruct (IH (n - 1)) as [rest Hr]. exists rest. simpl. congruence.
Qed.

Lemma take_length {A} (n : Z) (l : list A) : zlen (take n l) <= Z.max 0 n.
Proof.
  revert n; induction l as [|x r IH]; intro n; simpl.
  - rewrite zlen_nil. lia.
  - destruct (n <=? 0) eqn:Hn.
    + rewrite zlen_nil. lia.
    + apply Z.leb_gt in Hn.
      change (x :: take (n - 1) r) with ([x] ++ take (n - 1) r).
      rewrite zlen_app. specialize (IH (n - 1)).
      assert (zlen [x] = 1) by reflexivity. lia.
Qed.

End StrFacts.
Import StrFacts.

(** ** Context packing *)
Module PackFacts.
Import Selector.

Section Pack.
Variable toLowerCase : jsstr -> jsstr.
Variable budget : Z.

Definition blk (it : FileRecord * Z) : jsstr := fileBlock (fst it).

Lemma pack_loop_spec : forall items cur sel,
  zlen sel = cur -> (sel = [] \/ cur < budget) ->
  let out := pack_loop budget cur sel items in
  exists k,
    out = sel ++ List.concat (map blk (firstn k items))
    /\ (out = [] \/ zlen out < budget)
    /\ (forall it, nth_error items k = Some it -> budget <= zlen out + zlen (blk it)).
Proof.
  induction items as [|it rest IH]; intros cur sel Hlen Hinv; cbn -[fileBlock zlen].
  - exists 0%nat. cbn -[fileBlock zlen]. rewrite app_nil_r. split; [reflexivity|].
    split; [destruct Hinv; subst; auto|].
    intros it Hit. discriminate.
  - destruct (cur + zlen (fileBlock (fst it)) <? budget) eqn:Hfit.
    + apply Z.ltb_lt in Hfit.
      destruct (IH (cur + zlen (fileBlock (fst it))) (sel ++ fileBlock (fst it)))
        as [k [Hout [Hb Hstop]]].
      * rewrite zlen_app. lia.
      * right. exact Hfit.
      * exists (S k). cbn -[fileBlock zlen]. split; [|split; assumption].
        rewrite Hout. unfold blk at 2. cbn -[fileBlock zlen]. rewrite app_assoc. reflexivity.
    + apply Z.ltb_ge in Hfit.
      exists 0%nat. cbn -[fileBlock zlen]. rewrite app_nil_r. split; [reflexivity|].
      split; [destruct Hinv; subst; auto|].
      intros it' Hit. inversion Hit; subst. unfold blk. lia.
Qed.

End Pack.

Lemma contentSnippet_prefix (f : FileRecord) :
  zlen (contentSnippet f) <= 30000 /\ exists rest, content f = contentSnippet f ++ rest.
Proof.
  unfold contentSnippet. destruct (content f) as [|c r] eqn:Hc.
  - split; [rewrite zlen_nil; lia|]. exists []. reflexivity.
  - split.
    + pose proof (take_length 30000 (c :: r)). lia.
    + apply take_prefix.
Qed.

End PackFacts.
Import PackFacts.

(** C1: the assembled context is at most MAX_CONTEXT_CHARS (250,000) code
    units long; it is the concatenation of the whole blocks of a prefix of
    the score-sorted list, the first block left out being one whose addition
    would reach or exceed the budget; each block is the fixed template
    around at most the first 30,000 units of the document's content. *)
Theorem C1_select_context_budget (toLowerCase : jsstr -> jsstr)
    (message : jsstr) (files : list FileRecord) :
  let sorted := Selector.sortedFiles toLowerCase message files in
  let out := Selector.select_context toLowerCase message files in
  zlen out <= Selector.MAX_CONTEXT_CHARS
  /\ (exists k,
        out = List.concat (map (fun it => Selector.fileBlock (fst it)) (firstn k sorted))
        /\ forall it, nth_error sorted k = Some it ->
             Selector.MAX_CONTEXT_CHARS <= zlen out + zlen (Selector.fileBlock (fst it)))
  /\ (forall f, Selector.fileBlock f
                = Selector.block_head f ++ Selector.contentSnippet f ++ Selector.block_tail
             /\ zlen (Selector.contentSnippet f) <= 30000
             /\ exists rest, content f = Selector.contentSnippet f ++ rest).
Proof.
  intros sorted out.
  unfold out, Selector.select_context, Selector.build_context. fold sorted.
  destruct (pack_loop_spec Selector.MAX_CONTEXT_CHARS sorted 0 [] eq_refl (or_introl eq_refl))
    as [k [Hout [Hb Hstop]]].
  split; [|split].
  - destruct Hb as [Hb|Hb]; [rewrite Hb, zlen_nil; unfold Selector.MAX_CONTEXT_CHARS; lia | lia].
  - exists k. split; [exact Hout | exact Hstop].
  - intro f. split; [reflexivity | apply contentSnippet_prefix].
Qed.

(** ** The stable sort with a descending-key comparator *)
Module SortFacts.
Import JsSort.

Section Desc.
Context {A : Type} (key : A -> Z).

Definition cmp_desc (a b : A) : Z := key b - key a.
Definition R (a b : A) : Prop := key b <= key a.

Lemma filter_none (f : A -> bool) (l : list A) :
  (forall z, In z l -> f z = false) -> filter f l = [].
Proof.
  induction l as [|y ys IH]; simpl; intro H; [reflexivity|].
  rewrite (H y (or_introl eq_refl)). apply IH. intros z Hz. apply H. right. exact Hz.
Qed.

Lemma R_trans : forall a b c, R a b -> R b c -> R a c.
Proof. unfold R; intros; lia. Qed.

Lemma insert_perm (x : A) (l : list A) : Permutation (insert cmp_desc x l) (x :: l).
Proof.
  induction l as [|y ys IH]; simpl; [reflexivity|].
  destruct (0 <? cmp_desc y x); [reflexivity|].
  rewrite IH. apply perm_swap.
Qed.

Lemma insert_hd (a x : A) (l : list A) :
  HdRel R a l -> R a x -> HdRel R a (insert cmp_desc x l).
Proof.
  destruct l as [|y ys]; simpl; intros Hhd Hax.
  - constructor. exact Hax.
  - destruct (0 <? cmp_desc y x); constructor; [exact Hax|]. inversion Hhd; assumption.
Qed.

Lemma insert_sorted (x : A) (l : list A) :
  Sorted R l -> Sorted R (insert cmp_desc x l).
Proof.
  induction l as [|y ys IH]; simpl; intro Hs.
  - repeat constructor.
  - destruct (0 <? cmp_desc y x) eqn:Hc.
    + apply Z.ltb_lt in Hc. unfold cmp_desc in Hc.
      constructor; [exact Hs|]. constructor. unfold R. lia.
    + apply Z.ltb_ge in Hc. unfold cmp_desc in Hc.
      inversion Hs as [|? ? Hs' Hhd]; subst.
      constructor; [apply IH, Hs'|].
      apply insert_hd; [exact Hhd|]. unfold R. lia.
Qed.

Lemma sort_perm_acc : forall (l acc : list A),
  Permutation (fold_left (fun acc x => insert cmp_desc x acc) l acc) (acc ++ l).
Proof.
  induction l as [|x r IH]; intro acc; simpl.
  - rewrite app_nil_r. reflexivity.
  - rewrite IH, insert_perm. simpl. apply Permutation_middle.
Qed.

Lemma sort_perm (l : list A) : Permutation (sort cmp_desc l) l.
Proof. unfold sort. rewrite sort_perm_acc. reflexivity. Qed.

Lemma sort_sorted_acc : forall (l acc : list A),
  Sorted R acc -> Sorted R (fold_left (fun acc x => insert cmp_desc x acc) l acc).
Proof.
  induction l as [|x r IH]; intros acc Hs; simpl; [exact Hs|].
  apply IH, insert_sorted, Hs.
Qed.

Lemma sort_strongly_sorted (l : list A) : StronglySorted R (sort cmp_desc l).
Proof.
  apply Sorted_StronglySorted; [exact R_trans|].
  apply sort_sorted_acc. constructor.
Qed.

(** Stability: inserting [x] adds it after every element of its key. *)
Lemma insert_filter (v : Z) (x : A) (l : list A) :
  StronglySorted R l ->
  filter (fun a => key a =? v) (insert cmp_desc x l)
  = filter (fun a => key a =? v) l ++ filter (fun a => key a =? v) [x].
Proof.
  induction l as [|y ys IH]; simpl; intro Hs; [reflexivity|].
  inversion Hs as [|? ? Hs' Hall]; subst.
  destruct (0 <? cmp_desc y x) eqn:Hc.
  - apply Z.ltb_lt in Hc. unfold cmp_desc in Hc.
    destruct (key x =? v) eqn:Hx; simpl.
    + apply Z.eqb_eq in Hx.
      assert (Hnone : filter (fun a => key a =? v) (y :: ys) = []).
      { apply filter_none. intros z Hz.
        destruct Hz as [<-|Hz]; apply Z.eqb_neq; [lia|].
        rewrite Forall_forall in Hall. specialize (Hall z Hz). unfold R in Hall. lia. }
      simpl in Hnone. rewrite Hnone. simpl.
      destruct (key y =? v) eqn:Hy; [discriminate|].
      rewrite Hx, Z.eqb_refl. reflexivity.
    + rewrite Hx. simpl. rewrite app_nil_r. reflexivity.
  - simpl. rewrite IH by exact Hs'. simpl.
    destruct (key y =? v); reflexivity.
Qed.

Lemma sort_filter_acc (v : Z) : forall (l acc : list A),
  StronglySorted R acc ->
  filter (fun a => key a =? v) (fold_left (fun acc x => insert cmp_desc x acc) l acc)
  = filter (fun a => key a =? v) acc ++ filter (fun a => key a =? v) l.
Proof.
  induction l as [|x r IH]; intros acc Hs; simpl.
  - rewrite app_nil_r. reflexivity.
  - rewrite IH.
    + rewrite insert_filter by exact Hs. simpl.
      rewrite <- app_assoc. destruct (key x =? v); reflexivity.
    + apply Sorted_StronglySorted; [exact R_trans|].
      apply insert_sorted, StronglySorted_Sorted, Hs.
Qed.

Lemma sort_stable (v : Z) (l : list A) :
  filter (fun a => key a =? v) (sort cmp_desc l) = filter (fun a => key a =? v) l.
Proof. unfold sort. rewrite sort_filter_acc by constructor. reflexivity. Qed.

Lemma strongly_sorted_nth : forall (l : list A) i j a b,
  StronglySorted R l -> (i < j)%nat ->
  nth_error l i = Some a -> nth_error l j = Some b -> key b <= key a.
Proof.
  induction l as [|y ys IH]; intros i j a b Hs Hij Hi Hj.
  - destruct i; discriminate.
  - inversion Hs as [|? ? Hs' Hall]; subst.
    destruct j as [|j]; [lia|].
    destruct i as [|i].
    + simpl in Hi, Hj. inversion Hi; subst.
      rewrite Forall_forall in Hall. apply (Hall b).
      eapply nth_error_In; exact Hj.
    + simpl in Hi, Hj. apply (IH i j a b Hs'); [lia | exact Hi | exact Hj].
Qed.

End Desc.
End SortFacts.
Import SortFacts.

(** ** Scoring *)
Module ScoreFacts.
Import Selector.

Lemma score_fold (m : jsstr) : forall (l : list jsstr) (acc : Z),
  fold_left (fun score k => if includes m k then score + 10 else score) l acc
  = acc + 10 * zlen (filter (fun k => includes m k) l).
Proof.
  induction l as [|k r IH]; intro acc; cbn [fold_left filter].
  - rewrite (zlen_nil (A := jsstr)). lia.
  - rewrite IH. destruct (includes m k).
    + rewrite zlen_cons. lia.
    + lia.
Qed.

Lemma score_of_count (toLowerCase : jsstr -> jsstr) (message : jsstr) (f : FileRecord) :
  score_of toLowerCase message f
  = 10 * zlen (filter (fun k => includes (fullMeta toLowerCase f) k)
                      (keywords toLowerCase message)).
Proof. unfold score_of. rewrite score_fold. lia. Qed.

Lemma score_of_nonneg (toLowerCase : jsstr -> jsstr) (message : jsstr) (f : FileRecord) :
  0 <= score_of toLowerCase message f.
Proof. rewrite score_of_count. pose proof (zlen_nonneg (A := jsstr)). eauto with zarith. Qed.

Lemma score_of_no_match (toLowerCase : jsstr -> jsstr) (message : jsstr) (f : FileRecord) :
  (forall k, In k (keywords toLowerCase message) ->
             includes (fullMeta toLowerCase f) k = false) ->
  score_of toLowerCase message f = 0.
Proof.
  intro H. rewrite score_of_count.
  rewrite (filter_none (fun k => includes (fullMeta toLowerCase f) k) _ H). reflexivity.
Qed.

(** When every key is the same, the stable sort changes nothing. *)
Lemma sort_const {A} (key : A -> Z) (c : Z) : forall (l acc : list A),
  (forall a, In a (acc ++ l) -> key a = c) ->
  fold_left (fun acc x => JsSort.insert (cmp_desc key) x acc) l acc = acc ++ l.
Proof.
  assert (Hins : forall x acc, (forall a, In a (x :: acc) -> key a = c) ->
                 JsSort.insert (cmp_desc key) x acc = acc ++ [x]).
  { intros x acc; induction acc as [|y ys IH]; intro H; simpl; [reflexivity|].
    unfold cmp_desc at 1. rewrite (H y (or_intror (or_introl eq_refl))),
                            (H x (or_introl eq_refl)), Z.sub_diag. simpl.
    f_equal. apply IH. intros a [Ha|Ha]; apply H; [left; exact Ha | right; right; exact Ha]. }
  induction l as [|x r IH]; intros acc H; simpl.
  - rewrite app_nil_r. reflexivity.
  - rewrite Hins.
    + rewrite IH; [rewrite <- app_assoc; reflexivity|].
      intros a Ha. apply H. rewrite <- app_assoc in Ha. exact Ha.
    + intros a [<-|Ha]; apply H; apply in_or_app; [right; left; reflexivity | left; exact Ha].
Qed.

End ScoreFacts.
Import ScoreFacts.

(** The packing loop only appends to what it has selected. *)
Lemma pack_loop_extends (budget : Z) : forall items cur sel,
  exists t, Selector.pack_loop budget cur sel items = sel ++ t.
Proof.
  induction items as [|it rest IH]; intros cur sel; cbn -[Selector.fileBlock zlen].
  - exists []. rewrite app_nil_r. reflexivity.
  - destruct (cur + zlen (Selector.fileBlock (fst it)) <? budget).
    + destruct (IH (cur + zlen (Selector.fileBlock (fst it))) (sel ++ Selector.fileBlock (fst it)))
        as [t Ht].
      rewrite Ht. exists (Selector.fileBlock (fst it) ++ t). rewrite app_assoc. reflexivity.
    + exists []. rewrite app_nil_r. reflexivity.
Qed.

(** C2 (counterexample): the code joins the metadata fields with spaces
    and splits the query on the space character only, so a token spanning
    two fields ("ab" ++ "cd") or two tab-separated words do not score as
    the specification's concatenation and whitespace split say. *)
Lemma C2_counterexample :
  Selector.score_of js_to_lower (js "abcd") doc_ab_cd = 0
  /\ SpecScore.spec_score js_to_lower (js "abcd") doc_ab_cd = 10
  /\ Selector.score_of js_to_lower (js "abcd" ++ [9] ++ js "zzzz") doc_abcd = 0
  /\ SpecScore.spec_score js_to_lower (js "abcd" ++ [9] ++ js "zzzz") doc_abcd = 10.
Proof. vm_compute. repeat split. Qed.

(** C2 (as amended): the score is 10 times the number of keywords (the
    pieces of the lower-cased query split on " " longer than 3 units,
    repeats counted) that occur in the lower-cased string name + " " +
    caseName + " " + category + " " + description; changing the content
    never changes the score. *)
Theorem C2_score_counts_matching_keywords (toLowerCase : jsstr -> jsstr)
    (message : jsstr) (f : FileRecord) (c : jsstr) :
  Selector.score_of toLowerCase message f
  = 10 * zlen (filter (fun k => includes (Selector.fullMeta toLowerCase f) k)
                      (filter (fun w => 3 <? zlen w) (split_on 32 (toLowerCase message))))
  /\ Selector.fullMeta toLowerCase f
     = toLowerCase (name f ++ sp ++ caseName f ++ sp ++ category f ++ sp ++ description f)
  /\ Selector.score_of toLowerCase message f
     = Selector.score_of toLowerCase message
         {| id := id f; name := name f; path := path f; type := type f; content := c;
            timestamp := timestamp f; category := category f;
            description := description f; source := source f; period := period f;
            caseName := caseName f |}.
Proof.
  split; [|split].
  - apply score_of_count.
  - reflexivity.
  - reflexivity.
Qed.

(** C3: the sorted list is a permutation of the scored documents, its
    scores never increase along the list (so a document scoring 0 never
    precedes one with a positive score), documents with equal scores keep
    their original relative order, a document matching no keyword scores
    0, and no score is negative. *)
Theorem C3_sorted_files_stable_descending (toLowerCase : jsstr -> jsstr)
    (message : jsstr) (files : list FileRecord) :
  let input := map (fun f => (f, Selector.score_of toLowerCase message f)) files in
  let sorted := Selector.sortedFiles toLowerCase message files in
  Permutation sorted input
  /\ (forall i j a b, (i < j)%nat -> nth_error sorted i = Some a ->
                      nth_error sorted j = Some b -> snd b <= snd a)
  /\ (forall v, filter (fun it => snd it =? v) sorted = filter (fun it => snd it =? v) input)
  /\ (forall f, (forall k, In k (Selector.keywords toLowerCase message) ->
                          includes (Selector.fullMeta toLowerCase f) k = false) ->
                Selector.score_of toLowerCase message f = 0)
  /\ (forall f, 0 <= Selector.score_of toLowerCase message f).
Proof.
  intros input sorted.
  split; [|split; [|split; [|split]]].
  - apply (sort_perm (@snd FileRecord Z)).
  - intros i j a b Hij Ha Hb.
    exact (strongly_sorted_nth (@snd FileRecord Z) sorted i j a b
             (sort_strongly_sorted (@snd FileRecord Z) input) Hij Ha Hb).
  - intro v. apply (sort_stable (@snd FileRecord Z)).
  - apply score_of_no_match.
  - apply score_of_nonneg.
Qed.

(** C9 (counterexample): [toLowerCase] runs before the length filter and
    may lengthen a token: "İİ" (two units) lower-cases to four units, so
    it is kept as a keyword, the document named "İİ" scores 10, and the
    sort moves it ahead of the document uploaded before it. *)
Lemma C9_counterexample :
  (forall w, In w (split_on 32 [304; 304]) -> zlen w <= 3)
  /\ Selector.score_of js_to_lower [304; 304] doc_dotted = 10
  /\ map fst (Selector.sortedFiles js_to_lower [304; 304] [doc_pop; doc_dotted])
     = [doc_dotted; doc_pop].
Proof.
  split; [|split; [vm_compute; reflexivity | vm_compute; reflexivity]].
  intros w Hw. simpl in Hw. destruct Hw as [<-|[]]. vm_compute. discriminate.
Qed.

(** C9 (as amended): when every piece of the lower-cased query split on
    " " is at most 3 units long (for an ASCII query: every token of the
    query), every document scores 0, the sort keeps insertion order, the
    context is the greedy packing of the documents in insertion order, and
    it is not empty when the first document's block fits the budget. *)
Theorem C9_short_tokens_keep_insertion_order (toLowerCase : jsstr -> jsstr)
    (message : jsstr) (files : list FileRecord)
    (Hshort : forall w, In w (split_on 32 (toLowerCase message)) -> zlen w <= 3) :
  (forall f, Selector.score_of toLowerCase message f = 0)
  /\ Selector.sortedFiles toLowerCase message files = map (fun f => (f, 0)) files
  /\ Selector.select_context toLowerCase message files
     = Selector.pack_loop Selector.MAX_CONTEXT_CHARS 0 [] (map (fun f => (f, 0)) files)
  /\ (forall f rest, files = f :: rest ->
        zlen (Selector.fileBlock f) < Selector.MAX_CONTEXT_CHARS ->
        Selector.select_context toLowerCase message files <> []).
Proof.
  assert (Hkw : Selector.keywords toLowerCase message = []).
  { unfold Selector.keywords. apply filter_none. intros w Hw.
    apply Z.ltb_ge, Hshort, Hw. }
  assert (Hzero : forall f, Selector.score_of toLowerCase message f = 0).
  { intro f. unfold Selector.score_of. rewrite Hkw. reflexivity. }
  assert (Hsort : Selector.sortedFiles toLowerCase message files
                  = map (fun f => (f, 0)) files).
  { unfold Selector.sortedFiles.
    replace (map (fun f => (f, Selector.score_of toLowerCase message f)) files)
      with (map (fun f => (f, 0)) files)
      by (apply map_ext; intro f; rewrite Hzero; reflexivity).
    unfold JsSort.sort.
    apply (sort_const (@snd FileRecord Z) 0).
    intros a Ha. simpl in Ha. apply in_map_iff in Ha. destruct Ha as [f [<- _]]. reflexivity. }
  split; [exact Hzero|]. split; [exact Hsort|].
  assert (Hctx : Selector.select_context toLowerCase message files
                 = Selector.pack_loop Selector.MAX_CONTEXT_CHARS 0 []
                     (map (fun f => (f, 0)) files)).
  { unfold Selector.select_context, Selector.build_context. rewrite Hsort. reflexivity. }
  split; [exact Hctx|].
  intros f rest -> Hfit. rewrite Hctx. cbn [map Selector.pack_loop fst].
  replace (0 + zlen (Selector.fileBlock f) <? Selector.MAX_CONTEXT_CHARS) with true
    by (symmetry; apply Z.ltb_lt; lia).
  destruct (pack_loop_extends Selector.MAX_CONTEXT_CHARS (map (fun f => (f, 0)) rest)
              (0 + zlen (Selector.fileBlock f)) ([] ++ Selector.fileBlock f)) as [t ->].
  unfold Selector.fileBlock, Selector.block_head. simpl. discriminate.
Qed.

Lemma C9_witness :
  (forall w, In w (split_on 32 (js_to_lower (js "oi sgc"))) -> zlen w <= 3)
  /\ Selector.sortedFiles js_to_lower (js "oi sgc") [doc_abcd; doc_pop]
     = [(doc_abcd, 0); (doc_pop, 0)].
Proof.
  assert (H : forall w, In w (split_on 32 (js_to_lower (js "oi sgc"))) -> zlen w <= 3).
  { intros w Hw. vm_compute in Hw. destruct Hw as [<-|[<-|[]]]; vm_compute; discriminate. }
  split; [exact H|].
  exact (proj1 (proj2 (C9_short_tokens_keep_insertion_order js_to_lower (js "oi sgc")
                         [doc_abcd; doc_pop] H))).
Defined.

(** ** Server facts *)
Module ServerFacts.

Lemma jsstr_eqb_eq (a b : jsstr) : jsstr_eqb a b = true <-> a = b.
Proof. unfold jsstr_eqb. destruct (list_eq_dec Z.eq_dec a b); split; congruence. Qed.

Lemma jsstr_eqb_refl (a : jsstr) : jsstr_eqb a a = true.
Proof. apply jsstr_eqb_eq. reflexivity. Qed.

Lemma jsstr_eqb_neq (a b : jsstr) : a <> b -> jsstr_eqb a b = false.
Proof. intro H. destruct (jsstr_eqb a b) eqn:E; [apply jsstr_eqb_eq in E; contradiction|reflexivity]. Qed.

Lemma find_file_absent (i : jsstr) (l : list FileRecord) :
  ~ In i (map id l) -> find_file i l = None.
Proof.
  induction l as [|g r IH]; simpl; intro H; [reflexivity|].
  rewrite jsstr_eqb_neq by (intro E; apply H; left; exact E).
  apply IH. intro Hin. apply H. right. exact Hin.
Qed.

Lemma find_file_app_absent (i : jsstr) (l : list FileRecord) (g : FileRecord) :
  ~ In i (map id l) -> id g = i -> find_file i (l ++ [g]) = Some g.
Proof.
  induction l as [|h r IH]; simpl; intros H Hg.
  - rewrite Hg, jsstr_eqb_refl. reflexivity.
  - rewrite jsstr_eqb_neq by (intro E; apply H; left; exact E).
    apply IH; [intro Hin; apply H; right; exact Hin | exact Hg].
Qed.

Lemma remove_file_app_absent (i : jsstr) (l : list FileRecord) (g : FileRecord) :
  ~ In i (map id l) -> id g = i -> remove_file i (l ++ [g]) = l.
Proof.
  induction l as [|h r IH]; simpl; intros H Hg.
  - rewrite Hg, jsstr_eqb_refl. reflexivity.
  - rewrite jsstr_eqb_neq by (intro E; apply H; left; exact E).
    f_equal. apply IH; [intro Hin; apply H; right; exact Hin | exact Hg].
Qed.

(** DELETE of an id that no record has: the response is [{success: true}]
    and the whole state is unchanged. *)
Lemma delete_absent (s : Server) (i : jsstr) :
  ~ In i (map id (files s)) -> delete s i = (JsonResp 200 success, s).
Proof. intro H. unfold delete. rewrite find_file_absent by exact H. reflexivity. Qed.

Lemma delete_success (s : Server) (i : jsstr) : fst (delete s i) = JsonResp 200 success.
Proof. unfold delete. destruct (find_file i (files s)); reflexivity. Qed.

Lemma listed_no_content (l : list FileRecord) (o : jsval) :
  In o (map (fun f => JObj (without_content (file_obj f))) l) -> get o (js "content") = None.
Proof. intro H. apply in_map_iff in H. destruct H as [g [<- _]]. reflexivity. Qed.

Lemma listed_id (l : list FileRecord) (o : jsval) :
  In o (map (fun f => JObj (without_content (file_obj f))) l) ->
  exists g, In g l /\ get o (js "id") = Some (JStr (id g)).
Proof. intro H. apply in_map_iff in H. destruct H as [g [<- Hg]]. exists g. split; [exact Hg|reflexivity]. Qed.

End ServerFacts.
Import ServerFacts.

(** C10: deleting an id that is not in the collection returns
    [{success: true}] and changes nothing: db.json is not rewritten, no
    file is removed from disk, the cache is not flushed (cached answers
    stay servable), and no upstream call is counted. *)
Theorem C10_delete_absent_id_changes_nothing (s : Server) (i : jsstr)
    (Habsent : ~ In i (map id (files s))) :
  let '(r, s') := delete s i in
  r = JsonResp 200 success
  /\ files s' = files s /\ disk s' = disk s /\ cache s' = cache s
  /\ db_writes s' = db_writes s /\ upstream_calls s' = upstream_calls s.
Proof. rewrite delete_absent by exact Habsent. repeat split. Qed.

Lemma C10_witness :
  ~ In (js "nao-existe") (map id (files server_one_cached))
  /\ fst (delete server_one_cached (js "nao-existe")) = JsonResp 200 success
  /\ cache (snd (delete server_one_cached (js "nao-existe"))) = cache server_one_cached.
Proof.
  assert (H : ~ In (js "nao-existe") (map id (files server_one_cached))).
  { simpl. intros [E|[]]. discriminate. }
  pose proof (C10_delete_absent_id_changes_nothing server_one_cached (js "nao-existe") H) as C.
  destruct (delete server_one_cached (js "nao-existe")) as [r s'].
  destruct C as [Hr [_ [_ [Hc _]]]].
  split; [exact H|]. split; [exact Hr | exact Hc].
Defined.

(** C7: after an upload (with a fresh uuid) the response carries the
    record without its content; the listing contains exactly that object
    and no listed object has a content field; deleting the id returns
    [{success: true}] and removes it from the listing; a second delete of
    the same id changes nothing and returns [{success: true}]; every
    DELETE returns [{success: true}]. *)
Theorem C7_upload_list_delete_roundtrip (toLowerCase : jsstr -> jsstr) (s : Server)
    (now : Z) (f : UploadedFile) (metadata : Metadata) (rd : Readers) (uuid : jsstr)
    (Hfresh : ~ In uuid (map id (files s))) :
  (forall s' i, fst (delete s' i) = JsonResp 200 success)
  /\ let r1 := fst (upload toLowerCase s now (Some f) metadata rd uuid) in
     let s1 := snd (upload toLowerCase s now (Some f) metadata rd uuid) in
     exists F,
       r1 = JsonResp 200 (JObj [(js "success", JBool true); (js "file", JObj F)])
       /\ get (JObj F) (js "content") = None
       /\ get (JObj F) (js "id") = Some (JStr uuid)
       /\ get (JObj F) (js "name") = Some (JStr (originalname f))
       /\ get (JObj F) (js "category")
          = Some (JStr (or_default (meta_category metadata) (js "Geral")))
       /\ get (JObj F) (js "caseName") = Some (JStr (or_default (meta_caseName metadata) []))
       /\ (exists items, list_files s1 = JsonResp 200 (JArr items) /\ In (JObj F) items
                         /\ forall o, In o items -> get o (js "content") = None)
       /\ let r2 := fst (delete s1 uuid) in
          let s2 := snd (delete s1 uuid) in
          r2 = JsonResp 200 success
          /\ files s2 = files s
          /\ (exists items, list_files s2 = JsonResp 200 (JArr items)
                            /\ forall o, In o items -> get o (js "id") <> Some (JStr uuid))
          /\ delete s2 uuid = (JsonResp 200 success, s2).
Proof.
  split; [exact delete_success|].
  cbn zeta.
  set (nf := {| id := uuid; name := originalname f; path := file_path f;
                type := replace_first_dot (extname (originalname f));
                content := extractText toLowerCase rd (originalname f); timestamp := now;
                category := or_default (meta_category metadata) (js "Geral");
                description := or_default (meta_description metadata) [];
                source := or_default (meta_source metadata) [];
                period := or_default (meta_period metadata) [];
                caseName := or_default (meta_caseName metadata) [] |}).
  assert (Hup : upload toLowerCase s now (Some f) metadata rd uuid
                = (JsonResp 200 (JObj [(js "success", JBool true);
                                       (js "file", JObj (without_content (file_obj nf)))]),
                   {| files := files s ++ [nf]; disk := file_path f :: disk s; cache := [];
                      db_writes := S (db_writes s); upstream_calls := upstream_calls s |}))
    by reflexivity.
  rewrite Hup. cbn [fst snd].
  exists (without_content (file_obj nf)).
  split; [reflexivity|]. split; [reflexivity|]. split; [reflexivity|].
  split; [reflexivity|]. split; [reflexivity|]. split; [reflexivity|].
  split.
  - eexists. split; [reflexivity|]. split.
    + unfold Server.files. rewrite map_app. apply in_or_app. right. left. reflexivity.
    + apply listed_no_content.
  - assert (Hdel : delete {| files := files s ++ [nf]; disk := file_path f :: disk s;
                             cache := []; db_writes := S (db_writes s);
                             upstream_calls := upstream_calls s |} uuid
                   = (JsonResp 200 success,
                      {| files := files s;
                         disk := if existsb (jsstr_eqb (path nf)) (file_path f :: disk s)
                                 then filter (fun p => negb (jsstr_eqb (path nf) p))
                                             (file_path f :: disk s)
                                 else file_path f :: disk s;
                         cache := []; db_writes := S (S (db_writes s));
                         upstream_calls := upstream_calls s |})).
    { unfold delete. cbn [Server.files].
      rewrite (find_file_app_absent uuid (files s) nf Hfresh eq_refl).
      rewrite (remove_file_app_absent uuid (files s) nf Hfresh eq_refl).
      reflexivity. }
    rewrite Hdel. cbn [fst snd Server.files].
    split; [reflexivity|]. split; [reflexivity|]. split.
    + eexists. split; [reflexivity|].
      intros o Ho Hid. destruct (listed_id _ o Ho) as [g [Hg Hgid]].
      rewrite Hgid in Hid. inversion Hid as [Hgu].
      apply Hfresh. rewrite <- Hgu. apply in_map. exact Hg.
    + apply delete_absent. cbn [Server.files]. exact Hfresh.
Qed.

Lemma C7_witness :
  ~ In (js "u-2") (map id (files server_one_cached))
  /\ fst (upload js_to_lower server_one_cached 5 (Some {| originalname := js "a.csv";
            mimetype := js "text/csv"; file_path := js "uploads/5-a.csv" |})
            no_metadata {| readFileSync_utf8 := Ok (js "x,y");
                           xlsx_readFile := Throws (js "n/a");
                           mammoth_extractRawText := Throws (js "n/a");
                           pdfParse := Throws (js "n/a") |} (js "u-2"))
     <> JsonResp 400 JNull.
Proof.
  assert (H : ~ In (js "u-2") (map id (files server_one_cached))).
  { simpl. intros [E|[]]. discriminate. }
  split; [exact H|].
  destruct (proj2 (C7_upload_list_delete_roundtrip js_to_lower server_one_cached 5
                     {| originalname := js "a.csv"; mimetype := js "text/csv";
                        file_path := js "uploads/5-a.csv" |}
                     no_metadata {| readFileSync_utf8 := Ok (js "x,y");
                                    xlsx_readFile := Throws (js "n/a");
                                    mammoth_extractRawText := Throws (js "n/a");
                                    pdfParse := Throws (js "n/a") |} (js "u-2") H))
    as [F [HF _]].
  rewrite HF. discriminate.
Defined.

(** C6: [extractText] looks only at the lower-cased extension: one
    outside {.csv, .txt, .json, .xlsx, .xls, .docx, .pdf} gives ""; when
    the selected reader throws, the result is "Erro ao ler arquivo: " and
    the error's message; outside the spreadsheet branch two names with the
    same lower-cased extension give the same text; and an upload with a
    file always answers [{success: true, file}] and appends a record
    whose content is that text. *)
Theorem C6_extract_unsupported_or_failing (toLowerCase : jsstr -> jsstr) (rd : Readers) :
  (forall n, is_one_of (toLowerCase (extname n)) supported = false ->
             extractText toLowerCase rd n = [])
  /\ (forall n m, read_error (toLowerCase (extname n)) rd = Some m ->
                  extractText toLowerCase rd n = error_text m)
  /\ (forall n1 n2, toLowerCase (extname n1) = toLowerCase (extname n2) ->
        is_one_of (toLowerCase (extname n1)) [".xlsx"; ".xls"]%string = false ->
        extractText toLowerCase rd n1 = extractText toLowerCase rd n2)
  /\ (forall s now f metadata uuid,
        exists F s',
          upload toLowerCase s now (Some f) metadata rd uuid
          = (JsonResp 200 (JObj [(js "success", JBool true); (js "file", F)]), s')
          /\ exists nf, files s' = files s ++ [nf]
                        /\ content nf = extractText toLowerCase rd (originalname f)).
Proof.
  split; [|split; [|split]].
  - intros n H. unfold extractText.
    set (e := toLowerCase (extname n)) in *.
    unfold is_one_of, supported in *. cbn [existsb] in *.
    repeat rewrite orb_false_iff in H.
    destruct H as [H1 [H2 [H3 [H4 [H5 [H6 [H7 _]]]]]]].
    rewrite H1, H2, H3, H4, H5, H6, H7. reflexivity.
  - intros n m H. unfold read_error in H. unfold extractText.
    set (e := toLowerCase (extname n)) in *.
    destruct (is_one_of e [".csv"; ".txt"; ".json"]%string);
      [destruct (readFileSync_utf8 rd); inversion H; reflexivity|].
    destruct (is_one_of e [".xlsx"; ".xls"]%string);
      [destruct (xlsx_readFile rd); inversion H; reflexivity|].
    destruct (is_one_of e [".docx"]%string);
      [destruct (mammoth_extractRawText rd); inversion H; reflexivity|].
    destruct (is_one_of e [".pdf"]%string);
      [destruct (pdfParse rd); inversion H; reflexivity|].
    discriminate.
  - intros n1 n2 H12 Hx. unfold extractText. rewrite <- H12. rewrite Hx. reflexivity.
  - intros s now f metadata uuid. unfold upload.
    eexists. eexists. split; [reflexivity|].
    eexists. split; reflexivity.
Qed.

Lemma C6_witness :
  is_one_of (js_to_lower (extname (js "dados.ZIP"))) supported = false
  /\ read_error (js_to_lower (extname (js "dados.PDF"))) broken_readers
     = Some (js "Invalid PDF structure")
  /\ extractText js_to_lower broken_readers (js "dados.ZIP") = []
  /\ extractText js_to_lower broken_readers (js "dados.PDF")
     = error_text (js "Invalid PDF structure").
Proof.
  assert (Hz : is_one_of (js_to_lower (extname (js "dados.ZIP"))) supported = false)
    by (vm_compute; reflexivity).
  assert (Hp : read_error (js_to_lower (extname (js "dados.PDF"))) broken_readers
               = Some (js "Invalid PDF structure")) by (vm_compute; reflexivity).
  destruct (C6_extract_unsupported_or_failing js_to_lower broken_readers) as [A [B _]].
  split; [exact Hz|]. split; [exact Hp|]. split.
  - exact (A _ Hz).
  - exact (B _ _ Hp).
Defined.

(** C8: without an API key the answer is the HTTP 500 JSON error, nothing
    is streamed and the state (upstream call counter included) is
    unchanged; when the upstream call fails after [n] chunks, the 200 stream
    carries those chunks followed by one of the two fixed apology texts
    (the rate-limit one for a 429 or quota error), nothing is cached, and
    one upstream call was made. *)
Theorem C8_missing_key_and_upstream_failure :
  (forall s now k message history up, (k = None \/ k = Some []) ->
     ask s now k message history up
     = (JsonResp 500 (JObj [(js "error", JStr (js "Server API Key missing"))]), s))
  /\ (forall s now key message history cs e, key <> [] ->
        fst (cache_get now (cacheKey message history) (cache s)) = None ->
        let r := fst (ask s now (Some key) message history (UpFails cs e)) in
        let s' := snd (ask s now (Some key) message history (UpFails cs e)) in
        r = Stream (nonempty_chunks cs ++ [apology e])
        /\ upstream_calls s' = S (upstream_calls s)
        /\ cache s' = snd (cache_get now (cacheKey message history) (cache s))
        /\ files s' = files s
        /\ (apology e = RATE_LIMIT_TEXT \/ apology e = ERROR_TEXT)
        /\ (is_rate_limit e = true -> apology e = RATE_LIMIT_TEXT)).
Proof.
  split.
  - intros s now k message history up [-> | ->]; reflexivity.
  - intros s now key message history cs e Hkey Hmiss.
    destruct key as [|c r]; [contradiction|].
    unfold ask.
    destruct (cache_get now (cacheKey message history) (cache s)) as [cached c1] eqn:Hget.
    cbn [fst snd] in *. subst cached.
    cbn. split; [reflexivity|]. split; [reflexivity|]. split; [reflexivity|].
    split; [reflexivity|].
    unfold apology. split.
    + destruct (is_rate_limit e); [left|right]; reflexivity.
    + intro H. rewrite H. reflexivity.
Qed.

Lemma C8_witness :
  js "k" <> []
  /\ fst (cache_get 10 (cacheKey (js "idh") []) (cache server_one_cached)) = None
  /\ fst (ask server_one_cached 10 (Some (js "k")) (js "idh") []
            (UpFails [js "Parcial"] {| err_status := Some 429; err_message := None |}))
     = Stream (nonempty_chunks [js "Parcial"]
               ++ [apology {| err_status := Some 429; err_message := None |}]).
Proof.
  assert (Hk : js "k" <> []) by discriminate.
  assert (Hm : fst (cache_get 10 (cacheKey (js "idh") []) (cache server_one_cached)) = None)
    by (vm_compute; reflexivity).
  pose proof (proj2 C8_missing_key_and_upstream_failure server_one_cached 10 (js "k")
                (js "idh") [] [js "Parcial"] {| err_status := Some 429; err_message := None |}
                Hk Hm) as C.
  destruct C as [Hr _].
  split; [exact Hk|]. split; [exact Hm|]. exact Hr.
Defined.

(** ** The answer cache *)
Module CacheFacts.

Lemma cache_find_set (now : Z) (k v : jsstr) (c : Cache) :
  cache_find k (cache_set now k v c) = Some (v, now + stdTTL_ms).
Proof. unfold cache_set. simpl. rewrite jsstr_eqb_refl. reflexivity. Qed.

Lemma cacheKey_length (message : jsstr) (h h' : list (jsstr * jsstr)) :
  List.length h' = List.length h -> cacheKey message h' = cacheKey message h.
Proof. intro H. unfold cacheKey, zlen. rewrite H. reflexivity. Qed.

Lemma ask_miss (s : Server) (now : Z) (key message : jsstr) (h : list (jsstr * jsstr))
    (up : Upstream) :
  key <> [] -> fst (cache_get now (cacheKey message h) (cache s)) = None ->
  ask s now (Some key) message h up
  = ask_upstream s (snd (cache_get now (cacheKey message h) (cache s))) now
                 (cacheKey message h) up.
Proof.
  intros Hk Hmiss. destruct key as [|c r]; [contradiction|].
  unfold ask. destruct (cache_get now (cacheKey message h) (cache s)) as [cached c1].
  cbn [fst snd] in *. subst cached. reflexivity.
Qed.

Lemma cache_get_miss_gone (now : Z) (k : jsstr) (c : Cache) :
  fst (cache_get now k c) = None -> cache_find k (snd (cache_get now k c)) = None.
Proof.
  unfold cache_get. destruct (cache_find k c) as [[v t]|] eqn:E; [|intros _; exact E].
  destruct (now <=? t); cbn [fst snd]; [discriminate|intros _].
  unfold cache_del. clear E. induction c as [|[k' e] c IH]; [reflexivity|].
  cbn [filter fst]. destruct (jsstr_eqb k k') eqn:Ek; cbn [negb].
  - exact IH.
  - cbn [cache_find]. rewrite Ek. exact IH.
Qed.

Lemma cache_get_absent (now : Z) (k : jsstr) (c : Cache) :
  cache_find k c = None -> cache_get now k c = (None, c).
Proof. intro H. unfold cache_get. rewrite H. reflexivity. Qed.

Lemma ask_hit (s : Server) (now t : Z) (key message T : jsstr)
    (h : list (jsstr * jsstr)) (up : Upstream) :
  key <> [] -> T <> [] -> cache_find (cacheKey message h) (cache s) = Some (T, t) ->
  now <= t -> ask s now (Some key) message h up = (Stream [T], s).
Proof.
  intros Hk HT Hf Ht. destruct key as [|c r]; [contradiction|].
  unfold ask, cache_get. rewrite Hf.
  replace (now <=? t) with true by (symmetry; apply Z.leb_le; exact Ht).
  rewrite (jsstr_eqb_neq T [] HT). destruct s; reflexivity.
Qed.

Lemma run_hits (toLowerCase : jsstr -> jsstr) (key message T : jsstr)
    (h : list (jsstr * jsstr)) (t : Z) :
  key <> [] -> T <> [] ->
  forall rest s, cache_find (cacheKey message h) (cache s) = Some (T, t) ->
  (forall x, In x rest -> List.length (snd (fst x)) = List.length h /\ fst (fst x) <= t) ->
  run toLowerCase s (map (ask_req key message) rest) = (map (fun _ => Stream [T]) rest, s).
Proof.
  intros Hk HT rest. induction rest as [|x r IH]; intros s Hf Hr; [reflexivity|].
  cbn [map run step ask_req].
  destruct (Hr x (or_introl eq_refl)) as [Hlen Ht].
  rewrite (ask_hit s (fst (fst x)) t key message T (snd (fst x)) (snd x) Hk HT)
    by (try rewrite (cacheKey_length message h (snd (fst x)) Hlen); assumption).
  rewrite IH by (try assumption; intros y Hy; apply Hr; right; exact Hy).
  reflexivity.
Qed.

End CacheFacts.
Import CacheFacts.

(** C4 (counterexample): deleting an id that is not stored does not flush
    the cache, so the second of two identical questions around it is
    replayed without an upstream call; and a first call that fails caches
    nothing, so two identical questions make two upstream calls. *)
Lemma C4_counterexample :
  upstream_calls (snd (run js_to_lower server_fresh asks_around_absent_delete)) = 1%nat /\
  resp_text (nth 2 (fst (run js_to_lower server_fresh asks_around_absent_delete)) (Stream []))
    = js "Resposta" /\
  upstream_calls (snd (run js_to_lower server_fresh asks_after_failure)) = 2%nat.
Proof. vm_compute. repeat split; reflexivity. Qed.

(** C4 (amended): (1) when an [/api/ask] with a key misses the cache and
    its upstream call completes with a nonempty text [T], every later
    request with the same message, a history of the same length and a time
    within the TTL of the first is answered with [T] from the cache: the
    whole sequence makes exactly one upstream call and every response has
    text [T]; (2) an upload of a file, and a delete of a stored id, leave
    the cache empty, so the next keyed [/api/ask] calls upstream, and so
    does any keyed [/api/ask] on an empty cache; (3) a first call that
    misses the cache and then fails, or completes with an empty text,
    stores nothing (the cache keeps only what [appCache.get] left of it),
    so the next request with the same message and history length, at any
    time, calls upstream again: two upstream calls for the two requests;
    (4) a delete of an id that is not stored changes nothing, the cache
    included. *)
Theorem C4_cache_replay_and_flush (toLowerCase : jsstr -> jsstr) :
  (forall s now0 key message h cs rest,
     key <> [] ->
     fst (cache_get now0 (cacheKey message h) (cache s)) = None ->
     List.concat (nonempty_chunks cs) <> [] ->
     (forall x, In x rest ->
        List.length (snd (fst x)) = List.length h /\ fst (fst x) <= now0 + stdTTL_ms) ->
     let out := run toLowerCase s
                  (Ask now0 (Some key) message h (UpDone cs) :: map (ask_req key message) rest) in
     upstream_calls (snd out) = S (upstream_calls s) /\
     Forall (fun r => resp_text r = List.concat (nonempty_chunks cs)) (fst out)) /\
  (forall s now f m rd uuid,
     let s1 := snd (upload toLowerCase s now (Some f) m rd uuid) in
     cache s1 = [] /\
     forall now' key message h up, key <> [] ->
       upstream_calls (snd (ask s1 now' (Some key) message h up)) = S (upstream_calls s1)) /\
  (forall s i f, find_file i (files s) = Some f ->
     let s1 := snd (delete s i) in
     cache s1 = [] /\
     forall now' key message h up, key <> [] ->
       upstream_calls (snd (ask s1 now' (Some key) message h up)) = S (upstream_calls s1)) /\
  (forall s now key message h up,
     key <> [] -> cache s = [] ->
     upstream_calls (snd (ask s now (Some key) message h up)) = S (upstream_calls s)) /\
  (forall s now key message h up now' key' h' up',
     key <> [] -> key' <> [] ->
     fst (cache_get now (cacheKey message h) (cache s)) = None ->
     (exists cs, up = UpDone cs /\ List.concat (nonempty_chunks cs) = []) \/
     (exists cs e, up = UpFails cs e) ->
     List.length h' = List.length h ->
     let s1 := snd (ask s now (Some key) message h up) in
     cache s1 = snd (cache_get now (cacheKey message h) (cache s)) /\
     upstream_calls (snd (ask s1 now' (Some key') message h' up'))
     = S (S (upstream_calls s))) /\
  (forall s i, ~ In i (map id (files s)) -> delete s i = (JsonResp 200 success, s)).
Proof.
  split; [|split; [|split; [|split; [|split]]]].
  - intros s now0 key message h cs rest Hk Hmiss HT Hrest out.
    set (T := List.concat (nonempty_chunks cs)) in *.
    set (c1 := snd (cache_get now0 (cacheKey message h) (cache s))).
    set (s1 := {| files := files s; disk := disk s;
                  cache := cache_set now0 (cacheKey message h) T c1;
                  db_writes := db_writes s; upstream_calls := S (upstream_calls s) |}).
    assert (Hstep : ask s now0 (Some key) message h (UpDone cs)
                    = (Stream (nonempty_chunks cs), s1)).
    { rewrite ask_miss by assumption. unfold ask_upstream. fold T c1.
      replace (0 <? zlen T) with true; [reflexivity|].
      symmetry. apply Z.ltb_lt. destruct T as [|u r]; [contradiction|].
      rewrite zlen_cons. pose proof (zlen_nonneg r). lia. }
    assert (Hrun : run toLowerCase s1 (map (ask_req key message) rest)
                   = (map (fun _ => Stream [T]) rest, s1)).
    { apply (run_hits toLowerCase key message T h (now0 + stdTTL_ms) Hk HT).
      - apply cache_find_set.
      - exact Hrest. }
    unfold out. cbn [run step]. rewrite Hstep, Hrun. cbn [fst snd]. split; [reflexivity|].
    constructor; [reflexivity|].
    apply Forall_forall. intros r Hr. apply in_map_iff in Hr.
    destruct Hr as [x [<- _]]. cbn. apply app_nil_r.
  - intros s now f m rd uuid s1. split; [reflexivity|].
    intros now' key message h up Hk.
    rewrite ask_miss by (try assumption; reflexivity). destruct up; reflexivity.
  - intros s i f Hf s1.
    assert (Hc : cache s1 = []) by (unfold s1, delete; rewrite Hf; reflexivity).
    split; [exact Hc|]. intros now' key message h up Hk.
    rewrite ask_miss by (try assumption; rewrite Hc; reflexivity). destruct up; reflexivity.
  - intros s now key message h up Hk Hc.
    rewrite ask_miss by (try assumption; rewrite Hc; reflexivity).
    destruct up; reflexivity.
  - intros s now key message h up now' key' h' up' Hk Hk' Hmiss Hup Hlen s1.
    set (c1 := snd (cache_get now (cacheKey message h) (cache s))).
    assert (Hgone : cache_find (cacheKey message h) c1 = None)
      by (apply cache_get_miss_gone; exact Hmiss).
    assert (Hs1 : cache s1 = c1 /\ upstream_calls s1 = S (upstream_calls s)).
    { unfold s1. rewrite ask_miss by assumption. fold c1.
      destruct Hup as [[cs [-> Hnil]] | [cs [e ->]]]; cbn [ask_upstream cache upstream_calls].
      - rewrite Hnil. split; reflexivity.
      - split; reflexivity. }
    destruct Hs1 as [Hc1 Hu1]. split; [exact Hc1|].
    rewrite <- (cacheKey_length message h h' Hlen) in Hgone.
    rewrite ask_miss by (try assumption; rewrite Hc1, (cache_get_absent now' _ _ Hgone);
                         reflexivity).
    rewrite <- Hu1. destruct up'; reflexivity.
  - apply delete_absent.
Qed.

(** The amended C4 on concrete sequences: a question answered upstream,
    then replayed twice from the cache; and a question whose stream ends
    with an empty text, then asked again with another history of the same
    length, which calls upstream a second time. *)
Lemma C4_witness :
  fst (cache_get 0 (cacheKey (js "populacao") [(js "user", js "oi")]) (cache server_fresh)) = None /\
  upstream_calls (snd (run js_to_lower server_fresh
     (Ask 0 (Some (js "k")) (js "populacao") [(js "user", js "oi")] (UpDone [js "Resposta"])
      :: map (ask_req (js "k") (js "populacao"))
             [(10, [(js "user", js "ola")], UpDone [js "Outra"]);
              (20, [(js "model", js "tchau")], UpFails [] too_many_requests)])))
  = 1%nat /\
  upstream_calls (snd (ask (snd (ask server_fresh 0 (Some (js "k")) (js "populacao")
                                    [(js "user", js "oi")] (UpDone [js ""; []])))
                           5 (Some (js "k")) (js "populacao") [(js "model", js "tchau")]
                           (UpDone [js "Resposta"])))
  = 2%nat.
Proof.
  split; [reflexivity|].
  destruct (C4_cache_replay_and_flush js_to_lower) as [H [_ [_ [_ [H4 _]]]]].
  split; cycle 1.
  { refine (proj2 (H4 server_fresh 0 (js "k") (js "populacao") [(js "user", js "oi")]
                     (UpDone [js ""; []]) 5 (js "k") [(js "model", js "tchau")]
                     (UpDone [js "Resposta"]) _ _ _ _ _)).
    - discriminate.
    - discriminate.
    - reflexivity.
    - left. exists [js ""; []]. split; reflexivity.
    - reflexivity. }
  refine (proj1 (H server_fresh 0 (js "k") (js "populacao") [(js "user", js "oi")]
            [js "Resposta"]
            [(10, [(js "user", js "ola")], UpDone [js "Outra"]);
             (20, [(js "model", js "tchau")], UpFails [] too_many_requests)] _ _ _ _)).
  - discriminate.
  - reflexivity.
  - discriminate.
  - intros x Hx. cbn in Hx.
    destruct Hx as [<- | [<- | []]]; cbn; split; [reflexivity | unfold stdTTL_ms; lia
                                                 | reflexivity | unfold stdTTL_ms; lia].
Defined.

(** ** The Chart Extractor *)
Module ChartFacts.

Lemma from_first_brace_split (s : jsstr) :
  exists a, s = a ++ from_first_brace s /\ ~ In 123 a /\
            (from_first_brace s = [] \/ exists r, from_first_brace s = 123 :: r).
Proof.
  induction s as [|c r IH].
  - exists []. simpl. auto.
  - cbn [from_first_brace]. destruct (c =? 123) eqn:E.
    + apply Z.eqb_eq in E. subst c. exists []. split; [reflexivity|]. split; [intros []|]. right. eexists. reflexivity.
    + destruct IH as [a [Ha [Hn Hf]]]. exists (c :: a). split; [simpl; congruence|].
      split; [|exact Hf]. intros [Hc|Hc]; [subst c; discriminate|contradiction].
Qed.

Lemma upto_last_close_none (t : jsstr) : upto_last_close t = None -> ~ In 125 t.
Proof.
  induction t as [|c r IH]; [intros _ []|].
  cbn [upto_last_close]. destruct (upto_last_close r); [discriminate|].
  destruct (c =? 125) eqn:E; [discriminate|]. intros _ [Hc|Hc].
  - subst c. discriminate.
  - exact (IH eq_refl Hc).
Qed.

Lemma upto_last_close_split (t m : jsstr) :
  upto_last_close t = Some m ->
  exists b m', t = m ++ b /\ ~ In 125 b /\ m = m' ++ [125].
Proof.
  revert m. induction t as [|c r IH]; intros m H; [discriminate|].
  cbn [upto_last_close] in H. destruct (upto_last_close r) as [t0|] eqn:E.
  - injection H as <-. destruct (IH t0 eq_refl) as [b [m' [Hr [Hb Hm]]]].
    exists b, (c :: m'). subst. auto.
  - destruct (c =? 125) eqn:Ec; [|discriminate]. injection H as <-.
    apply Z.eqb_eq in Ec. subst c. exists r, [].
    split; [reflexivity|]. split; [exact (upto_last_close_none r E)|reflexivity].
Qed.

(** A match is a substring of the answer that begins with its first "{",
    ends with a "}", and is followed by no "}". *)
Lemma json_match_shape (s m : jsstr) :
  json_match s = Some m ->
  exists a b r m', s = a ++ m ++ b /\ ~ In 123 a /\ ~ In 125 b /\
                   m = 123 :: r /\ m = m' ++ [125].
Proof.
  unfold json_match. destruct (from_first_brace_split s) as [a [Ha [Hn Hf]]].
  destruct Hf as [Hf | [r0 Hf]]; rewrite Hf in *; [discriminate|].
  intro H. pose proof H as H'. apply upto_last_close_split in H'.
  destruct H' as [b [m' [Ht [Hb Hm]]]].
  cbn [upto_last_close] in H. destruct (upto_last_close r0) as [t0|].
  - injection H as <-. exists a, b, t0, m'. rewrite Ha at 1. rewrite Ht.
    repeat split; try assumption.
  - discriminate.
Qed.

End ChartFacts.
Import ChartFacts.

(** C5 (counterexample): the extractor tests the fields for truthiness. A
    parsed object with a truthy [chart] and an empty [message] is shown with
    the whole answer, not the empty message; an object whose [chart] field
    is [0] yields no chart. *)
Lemma C5_counterexample :
  json_parse answer_empty_message
    = Some (JObj [(js "chart", JObj [(js "type", JStr (js "bar"))]);
                  (js "message", JStr [])]) /\
  extract_chart answer_empty_message
    = {| text := JStr answer_empty_message;
         chartData := Some (JObj [(js "type", JStr (js "bar"))]) |} /\
  json_parse answer_zero_chart = Some (JObj [(js "chart", JNum 0 0)]) /\
  extract_chart answer_zero_chart = plain answer_zero_chart.
Proof. vm_compute. repeat split; reflexivity. Qed.

(** C5 (amended): the extractor is a total function of the answer. With no
    match of /\{[\s\S]*\}/ (a substring from the first "{" to the last "}"
    after it), with a match whose fence-stripped text is not JSON, or with a
    parsed object whose [chart] field is falsy (absent, null, false, 0, ""),
    it returns the answer and no chart. With a truthy [chart] it returns
    that chart; the text is the [message] field when that is truthy, else
    the placeholder when the answer contains a code fence, else the answer. *)
Theorem C5_extract_chart_cases :
  (forall fullText m, json_match fullText = Some m ->
     exists a b r m', fullText = a ++ m ++ b /\ ~ In 123 a /\ ~ In 125 b /\
                      m = 123 :: r /\ m = m' ++ [125]) /\
  (forall fullText, json_match fullText = None -> extract_chart fullText = plain fullText) /\
  (forall fullText m, json_match fullText = Some m -> json_parse (clean_json m) = None ->
     extract_chart fullText = plain fullText) /\
  (forall fullText m parsed, json_match fullText = Some m ->
     json_parse (clean_json m) = Some parsed -> truthy (get parsed (js "chart")) = false ->
     extract_chart fullText = plain fullText) /\
  (forall fullText m parsed chart msg, json_match fullText = Some m ->
     json_parse (clean_json m) = Some parsed -> get parsed (js "chart") = Some chart ->
     truthy (Some chart) = true -> get parsed (js "message") = Some msg ->
     truthy (Some msg) = true ->
     extract_chart fullText = {| text := msg; chartData := Some chart |}) /\
  (forall fullText m parsed chart, json_match fullText = Some m ->
     json_parse (clean_json m) = Some parsed -> get parsed (js "chart") = Some chart ->
     truthy (Some chart) = true -> truthy (get parsed (js "message")) = false ->
     extract_chart fullText
     = {| text := if includes fullText FENCE then JStr CHART_PLACEHOLDER else JStr fullText;
          chartData := Some chart |}).
Proof.
  split; [exact json_match_shape|].
  split; [intros t H; unfold extract_chart; rewrite H; reflexivity|].
  split; [intros t m H Hp; unfold extract_chart; rewrite H, Hp; reflexivity|].
  split; [intros t m p H Hp Hc; unfold extract_chart; rewrite H, Hp, Hc; reflexivity|].
  split.
  - intros t m p c v H Hp Hc Htc Hm Htm. unfold extract_chart.
    rewrite H, Hp, Hc, Htc, Hm, Htm. reflexivity.
  - intros t m p c H Hp Hc Htc Htm. unfold extract_chart.
    rewrite H, Hp, Hc, Htc, Htm. reflexivity.
Qed.

(** The amended C5 on a fenced answer: the chart is returned with the
    placeholder text. *)
Lemma C5_witness :
  extract_chart answer_fenced
  = {| text := JStr CHART_PLACEHOLDER;
       chartData := Some (JObj [(js "type", JStr (js "bar"))]) |}.
Proof.
  destruct C5_extract_chart_cases as [_ [_ [_ [_ [_ H]]]]].
  rewrite (H answer_fenced (dq "{'chart':{'type':'bar'}}")
             (JObj [(js "chart", JObj [(js "type", JStr (js "bar"))])])
             (JObj [(js "type", JStr (js "bar"))]));
    [reflexivity | vm_compute; reflexivity ..].
Defined.

(** ** Further properties of the server, the db.json file and the client *)

Import Multer UploadRoute JsonPreds.

Module NumFacts.
Import Multer UploadRoute JsonPreds.

Lemma digits_value_snoc (l : list Z) (x : Z) :
  digits_value (l ++ [x]) = digits_value l * 10 + x.
Proof. unfold digits_value. rewrite fold_left_app. reflexivity. Qed.

Lemma dec_digits_spec (fuel : nat) : forall n acc,
  0 <= n < 2 ^ Z.of_nat fuel -> (1 <= fuel)%nat ->
  exists d ds, dec_digits fuel n (map (Z.add 48) acc) = map (Z.add 48) (d :: ds ++ acc)
               /\ is_dec (d :: ds) /\ digits_value (d :: ds) = n
               /\ (d = 0 -> ds = [] /\ n = 0).
Proof.
  induction fuel as [|f IH]; intros n acc Hn Hf; [lia|].
  cbn [dec_digits].
  pose proof (Z.mod_pos_bound n 10 ltac:(lia)) as Hm.
  pose proof (Z.div_mod n 10 ltac:(lia)) as Hd.
  destruct (n / 10 =? 0) eqn:E.
  - apply Z.eqb_eq in E. exists (n mod 10), []. cbn. split; [reflexivity|].
    split; [constructor; [lia|constructor]|]. split; [lia|]. intros; split; [reflexivity|lia].
  - apply Z.eqb_neq in E.
    assert (Hf' : (1 <= f)%nat).
    { destruct f; [|lia]. exfalso. cbn in Hn. assert (n / 10 = 0) by (apply Z.div_small; lia). lia. }
    assert (Hn' : 0 <= n / 10 < 2 ^ Z.of_nat f).
    { split; [apply Z.div_pos; lia|].
      rewrite Nat2Z.inj_succ, Z.pow_succ_r in Hn by lia.
      assert (n / 10 <= n / 2) by (apply Z.div_le_compat_l; lia).
      assert (n / 2 < 2 ^ Z.of_nat f) by (apply Z.div_lt_upper_bound; lia). lia. }
    destruct (IH (n / 10) (n mod 10 :: acc) Hn' Hf') as [d [ds [Heq [Hdec [Hv Hz]]]]].
    exists d, (ds ++ [n mod 10]). cbn [map] in Heq |- *. rewrite Heq.
    split; [rewrite <- app_assoc; reflexivity|].
    split; [unfold is_dec in *; rewrite app_comm_cons; apply Forall_app; split; [exact Hdec|constructor; [lia|constructor]]|].
    split; [rewrite app_comm_cons, digits_value_snoc, Hv; lia|].
    intro H0. destruct (Hz H0). lia.
Qed.

Lemma number_string_spec (n : Z) : 0 <= n ->
  exists d ds, number_string n = map (Z.add 48) (d :: ds) /\ is_dec (d :: ds)
               /\ digits_value (d :: ds) = n /\ (d = 0 -> ds = [] /\ n = 0).
Proof.
  intro Hn. unfold number_string.
  destruct (dec_digits_spec (Z.to_nat (Z.log2 n + 1)) n [])
    as [d [ds [H1 H2]]].
  - pose proof (Z.log2_nonneg n). rewrite Z2Nat.id by lia. split; [lia|].
    destruct (Z.eq_dec n 0) as [->|Hn0]; [reflexivity|].
    rewrite Z.add_1_r. apply Z.log2_spec. lia.
  - pose proof (Z.log2_nonneg n). lia.
  - exists d, ds. rewrite app_nil_r in H1. cbn [map] in H1. split; [exact H1|exact H2].
Qed.

Lemma is_digit_shift (x : Z) : 0 <= x <= 9 -> is_digit (48 + x) = true.
Proof. intro H. unfold is_digit. apply andb_true_intro; split; apply Z.leb_le; lia. Qed.

Lemma digits_map (ds : list Z) (rest : jsstr) :
  is_dec ds -> delim rest -> digits (map (Z.add 48) ds ++ rest) = (ds, rest).
Proof.
  intros Hds Hr. induction Hds as [|x l Hx Hl IH].
  - destruct rest as [|c r]; [reflexivity|].
    cbn in Hr |- *. repeat destruct Hr as [<-|Hr]; try contradiction; reflexivity.
  - cbn [map app digits]. rewrite is_digit_shift by exact Hx. rewrite IH.
    f_equal. f_equal. lia.
Qed.

Lemma parse_number_digits (d : Z) (ds : list Z) (rest : jsstr) :
  is_dec (d :: ds) -> (d = 0 -> ds = []) -> delim rest ->
  parse_number (map (Z.add 48) (d :: ds) ++ rest) = Some (JNum (digits_value (d :: ds)) 0, rest).
Proof.
  intros Hdec Hz Hr. inversion Hdec as [|? ? Hd Hds]; subst.
  assert (Hrest : rest = [] \/ exists c r, rest = c :: r /\ In c [44; 125; 93; 10; 32; 9; 13]).
  { destruct rest as [|c r]; [auto|right; eauto]. }
  assert (Hdd : d = 0 \/ d = 1 \/ d = 2 \/ d = 3 \/ d = 4 \/ d = 5 \/ d = 6 \/ d = 7
                \/ d = 8 \/ d = 9) by lia.
  destruct Hdd as [->|Hdd].
  - rewrite (Hz eq_refl). destruct Hrest as [->|[c [r [-> Hc]]]]; [reflexivity|].
    cbn in Hc. repeat destruct Hc as [<-|Hc]; try contradiction; reflexivity.
  - assert (Hdig := digits_map ds rest Hds Hr).
    repeat destruct Hdd as [->|Hdd]; try subst d; cbn; rewrite Hdig;
      (destruct Hrest as [->|[c [r [-> Hc]]]];
       [|cbn in Hc; repeat destruct Hc as [<-|Hc]; try contradiction]; cbn; rewrite ?app_nil_r; reflexivity).
Qed.

Lemma parse_number_neg_digits (d : Z) (ds : list Z) (rest : jsstr) :
  is_dec (d :: ds) -> (d = 0 -> ds = []) -> delim rest ->
  parse_number (45 :: map (Z.add 48) (d :: ds) ++ rest)
  = Some (JNum (- digits_value (d :: ds)) 0, rest).
Proof.
  intros Hdec Hz Hr. inversion Hdec as [|? ? Hd Hds]; subst.
  assert (Hrest : rest = [] \/ exists c r, rest = c :: r /\ In c [44; 125; 93; 10; 32; 9; 13]).
  { destruct rest as [|c r]; [auto|right; eauto]. }
  assert (Hdd : d = 0 \/ d = 1 \/ d = 2 \/ d = 3 \/ d = 4 \/ d = 5 \/ d = 6 \/ d = 7
                \/ d = 8 \/ d = 9) by lia.
  destruct Hdd as [->|Hdd].
  - rewrite (Hz eq_refl). destruct Hrest as [->|[c [r [-> Hc]]]]; [reflexivity|].
    cbn in Hc. repeat destruct Hc as [<-|Hc]; try contradiction; reflexivity.
  - assert (Hdig := digits_map ds rest Hds Hr).
    repeat destruct Hdd as [->|Hdd]; try subst d; cbn; rewrite Hdig;
      (destruct Hrest as [->|[c [r [-> Hc]]]];
       [|cbn in Hc; repeat destruct Hc as [<-|Hc]; try contradiction]; cbn; rewrite ?app_nil_r; reflexivity).
Qed.

Lemma parse_number_text (m : Z) (t rest : jsstr) :
  number_text m 0 = Some t -> delim rest -> parse_number (t ++ rest) = Some (JNum m 0, rest).
Proof.
  unfold number_text. intros Ht Hr. cbn [Z.eqb andb] in Ht.
  destruct (Z.abs m <=? 2 ^ 53); [|discriminate]. injection Ht as <-.
  destruct (m <? 0) eqn:Hneg.
  - apply Z.ltb_lt in Hneg.
    destruct (number_string_spec (- m) ltac:(lia)) as [d [ds [Hs [Hdec [Hv Hz]]]]].
    rewrite Hs. cbn [app]. rewrite parse_number_neg_digits by (auto; intro; apply Hz; auto).
    rewrite Hv. do 3 f_equal. lia.
  - apply Z.ltb_ge in Hneg.
    destruct (number_string_spec m ltac:(lia)) as [d [ds [Hs [Hdec [Hv Hz]]]]].
    rewrite Hs. rewrite parse_number_digits by (auto; intro; apply Hz; auto).
    rewrite Hv. reflexivity.
Qed.

End NumFacts.

Module StringFacts.

Lemma psb_plain (c : Z) (t : jsstr) :
  c <> 34 -> c <> 92 -> 32 <= c ->
  parse_string_body (c :: t)
  = match parse_string_body t with Some (str, rest) => Some (c :: str, rest) | None => None end.
Proof.
  intros H34 H92 H32. destruct c as [|p|p]; [lia| |lia].
  assert (Hlt : (Z.pos p <? 32) = false) by (apply Z.ltb_ge; lia).
  do 7 (try destruct p as [p|p|]); try lia; try reflexivity;
  (cbn [parse_string_body]; rewrite Hlt; reflexivity).
Qed.

Lemma hex_value_digit (x : Z) : 0 <= x < 16 -> hex_value (hex_digit x) = Some x.
Proof.
  intro H.
  assert (x = 0 \/ x = 1 \/ x = 2 \/ x = 3 \/ x = 4 \/ x = 5 \/ x = 6 \/ x = 7 \/
          x = 8 \/ x = 9 \/ x = 10 \/ x = 11 \/ x = 12 \/ x = 13 \/ x = 14 \/ x = 15)
    as Hx by lia.
  repeat destruct Hx as [->|Hx]; try subst x; reflexivity.
Qed.

Lemma hex4 (c : Z) : 0 <= c < 65536 ->
  ((c / 4096 mod 16 * 16 + c / 256 mod 16) * 16 + c / 16 mod 16) * 16 + c mod 16 = c.
Proof.
  intro H.
  pose proof (Z.div_mod c 16 ltac:(lia)) as E1.
  pose proof (Z.div_mod (c / 16) 16 ltac:(lia)) as E2.
  pose proof (Z.div_mod (c / 256) 16 ltac:(lia)) as E3.
  assert (D1 : c / 16 / 16 = c / 256) by (rewrite Z.div_div by lia; reflexivity).
  assert (D2 : c / 256 / 16 = c / 4096) by (rewrite Z.div_div by lia; reflexivity).
  rewrite D1 in E2. rewrite D2 in E3.
  assert (B : 0 <= c / 4096 < 16) by (split; [apply Z.div_pos|apply Z.div_lt_upper_bound]; lia).
  rewrite (Z.mod_small (c / 4096) 16) by exact B.
  lia.
Qed.

Lemma psb_unicode (c : Z) (t : jsstr) : 0 <= c < 65536 ->
  parse_string_body (unicode_escape c ++ t) = consr c (parse_string_body t).
Proof.
  intro H. unfold unicode_escape. cbn [app parse_string_body].
  rewrite !hex_value_digit by (apply Z.mod_pos_bound; lia).
  rewrite hex4 by exact H. reflexivity.
Qed.

Lemma psb_escape_unit (c : Z) (t : jsstr) : 0 <= c < 65536 ->
  parse_string_body (escape_unit c ++ t) = consr c (parse_string_body t).
Proof.
  intro H. unfold escape_unit.
  destruct (c =? 8) eqn:E8; [apply Z.eqb_eq in E8; subst; cbn; destruct (parse_string_body t) as [[]|]; reflexivity|].
  destruct (c =? 9) eqn:E9; [apply Z.eqb_eq in E9; subst; cbn; destruct (parse_string_body t) as [[]|]; reflexivity|].
  destruct (c =? 10) eqn:E10; [apply Z.eqb_eq in E10; subst; cbn; destruct (parse_string_body t) as [[]|]; reflexivity|].
  destruct (c =? 12) eqn:E12; [apply Z.eqb_eq in E12; subst; cbn; destruct (parse_string_body t) as [[]|]; reflexivity|].
  destruct (c =? 13) eqn:E13; [apply Z.eqb_eq in E13; subst; cbn; destruct (parse_string_body t) as [[]|]; reflexivity|].
  destruct (c =? 34) eqn:E34; [apply Z.eqb_eq in E34; subst; cbn; destruct (parse_string_body t) as [[]|]; reflexivity|].
  destruct (c =? 92) eqn:E92; [apply Z.eqb_eq in E92; subst; cbn; destruct (parse_string_body t) as [[]|]; reflexivity|].
  destruct ((c <? 32) || is_lead c || is_trail c)%bool eqn:Eu; [apply psb_unicode; exact H|].
  apply orb_false_iff in Eu as [Eu _]. apply orb_false_iff in Eu as [Eu _].
  apply Z.ltb_ge in Eu. apply Z.eqb_neq in E34, E92.
  cbn [app]. rewrite psb_plain by assumption. reflexivity.
Qed.

Lemma psb_quote_units (s rest : jsstr) : units_ok s ->
  parse_string_body (quote_units s ++ 34 :: rest) = Some (s, rest).
Proof.
  remember (List.length s) as n eqn:Hn. assert (Hle : (List.length s <= n)%nat) by lia. clear Hn.
  revert s Hle. induction n as [|n IH]; intros s Hle Hs.
  - destruct s; [reflexivity|cbn in Hle; lia].
  - destruct s as [|c r]; [reflexivity|].
    inversion Hs as [|? ? Hc Hr]; subst. cbn [List.length] in Hle.
    cbn [quote_units]. destruct (is_lead c) eqn:El.
    + destruct r as [|d r'].
      * rewrite psb_escape_unit by exact Hc. reflexivity.
      * inversion Hr as [|? ? Hd Hr']; subst. cbn [List.length] in Hle.
        destruct (is_trail d) eqn:Et.
        -- unfold is_lead, is_trail in El, Et.
           apply andb_true_iff in El as [El1 El2]. apply andb_true_iff in Et as [Et1 Et2].
           apply Z.leb_le in El1, El2, Et1, Et2.
           cbn [app]. rewrite psb_plain by lia. rewrite psb_plain by lia.
           rewrite IH by (auto; lia). reflexivity.
        -- rewrite <- app_assoc. rewrite psb_escape_unit by exact Hc.
           rewrite IH by (auto; cbn [List.length]; lia). reflexivity.
    + rewrite <- app_assoc. rewrite psb_escape_unit by exact Hc.
      rewrite IH by (auto; lia). reflexivity.
Qed.

End StringFacts.

Module RoundTrip.
Import NumFacts StringFacts.

Lemma skip_ws_app (w s : jsstr) : ws w -> skip_ws (w ++ s) = skip_ws s.
Proof. induction 1 as [|c w Hc Hw IH]; [reflexivity|]. cbn [app skip_ws]. rewrite Hc. exact IH. Qed.

Lemma pv_ws (f : nat) (w s : jsstr) : ws w -> parse_value f (w ++ s) = parse_value f s.
Proof. intro H. destruct f; [reflexivity|]. cbn [parse_value]. rewrite skip_ws_app by exact H. reflexivity. Qed.

Lemma pm_ws (f : nat) acc (w s : jsstr) : ws w -> parse_members f acc (w ++ s) = parse_members f acc s.
Proof. intro H. destruct f; [reflexivity|]. cbn [parse_members]. rewrite skip_ws_app by exact H. reflexivity. Qed.

Lemma pv_arr (f : nat) (r : jsstr) :
  (forall r', skip_ws r <> 93 :: r') -> parse_value (S f) (91 :: r) = parse_elements f [] r.
Proof.
  intro H. simpl.
  destruct (skip_ws r) as [|c r'] eqn:E; [reflexivity|].
  destruct c as [|p|p]; try reflexivity.
  do 8 (try destruct p as [p|p|]); try reflexivity; exfalso; exact (H r' eq_refl).
Qed.

Lemma pv_obj (f : nat) (r : jsstr) :
  (forall r', skip_ws r <> 125 :: r') -> parse_value (S f) (123 :: r) = parse_members f [] r.
Proof.
  intro H. simpl.
  destruct (skip_ws r) as [|c r'] eqn:E; [reflexivity|].
  destruct c as [|p|p]; try reflexivity.
  do 8 (try destruct p as [p|p|]); try reflexivity; exfalso; exact (H r' eq_refl).
Qed.

Lemma pv_num (f : nat) (c : Z) (s : jsstr) :
  c = 45 \/ 48 <= c <= 57 -> parse_value (S f) (c :: s) = parse_number (c :: s).
Proof.
  intros [->|H]; [reflexivity|].
  assert (c = 48 \/ c = 49 \/ c = 50 \/ c = 51 \/ c = 52 \/ c = 53 \/ c = 54 \/ c = 55
          \/ c = 56 \/ c = 57) as Hc by lia.
  repeat destruct Hc as [->|Hc]; try subst c; reflexivity.
Qed.

Lemma value_head_facts (c : Z) :
  value_head c -> is_ws c = false /\ c <> 93 /\ c <> 125 /\ c <> 44.
Proof.
  unfold value_head, is_ws. intro H.
  assert (c <> 32 /\ c <> 9 /\ c <> 10 /\ c <> 13 /\ c <> 93 /\ c <> 125 /\ c <> 44)
    as (H1 & H2 & H3 & H4 & H5 & H6 & H7) by lia.
  apply Z.eqb_neq in H1, H2, H3, H4. rewrite H1, H2, H3, H4. auto.
Qed.

Lemma spaces_ws (g : jsstr) : spaces g -> ws g.
Proof. apply Forall_impl. intros c ->. reflexivity. Qed.

Lemma ws_app (a b : jsstr) : ws a -> ws b -> ws (a ++ b).
Proof. intros Ha Hb. apply Forall_app. split; assumption. Qed.

Lemma wrap_shape (op cl : Z) (gap ind : jsstr) (partial : list jsstr) :
  spaces gap -> spaces ind -> partial <> [] ->
  exists w w', ws w /\ ws w' /\
    wrap op cl gap ind partial = op :: w ++ join (44 :: w) partial ++ w' ++ [cl].
Proof.
  intros Hg Hi Hp. unfold wrap. destruct partial as [|p ps]; [contradiction|].
  destruct gap as [|g gs].
  - exists [], []. split; [constructor|]. split; [constructor|]. reflexivity.
  - exists (nl ++ ind ++ g :: gs), (nl ++ ind).
    assert (Hn : ws nl) by (repeat constructor).
    split; [apply ws_app; [exact Hn|apply ws_app; apply spaces_ws; assumption]|].
    split; [apply ws_app; [exact Hn|apply spaces_ws; assumption]|].
    rewrite <- !app_assoc. reflexivity.
Qed.

Lemma number_head (m : Z) (t : jsstr) : number_text m 0 = Some t ->
  exists c t', t = c :: t' /\ value_head c.
Proof.
  unfold number_text. cbn [Z.eqb andb]. destruct (Z.abs m <=? 2 ^ 53); [|discriminate].
  intro H. injection H as <-. destruct (m <? 0) eqn:Hn.
  - eexists _, _. split; [reflexivity|]. unfold value_head; lia.
  - apply Z.ltb_ge in Hn. destruct (number_string_spec m Hn) as [d [ds [-> [Hd _]]]].
    inversion Hd; subst. eexists _, _. split; [reflexivity|]. unfold value_head; lia.
Qed.

Lemma ser_head (gap ind : jsstr) (v : jsval) (t : jsstr) :
  ser gap ind v = Some t -> exists c t', t = c :: t' /\ value_head c.
Proof.
  unfold value_head.
  destruct v as [|[]|m e|str|items|fields]; cbn [ser]; intro H.
  - injection H as <-. eexists _, _. split; [reflexivity|]. lia.
  - injection H as <-. eexists _, _. split; [reflexivity|]. lia.
  - injection H as <-. eexists _, _. split; [reflexivity|]. lia.
  - unfold number_text in H. destruct (e =? 0) eqn:He; [|discriminate].
    apply Z.eqb_eq in He. subst e. exact (number_head m t H).
  - injection H as <-. eexists _, _. split; [reflexivity|]. lia.
  - destruct (all_some _) as [ps|]; [|discriminate]. injection H as <-.
    unfold wrap. destruct ps; [|destruct gap]; eexists _, _; (split; [reflexivity|lia]).
  - destruct (all_some _) as [ps|]; [|discriminate]. injection H as <-.
    unfold wrap. destruct ps; [|destruct gap]; eexists _, _; (split; [reflexivity|lia]).
Qed.

Lemma skip_ws_value (gap ind : jsstr) (v : jsval) (t rest : jsstr) :
  ser gap ind v = Some t -> exists c t', t = c :: t' /\ skip_ws (t ++ rest) = t ++ rest
                                      /\ c <> 93 /\ c <> 125.
Proof.
  intro H. destruct (ser_head gap ind v t H) as [c [t' [-> Hc]]].
  destruct (value_head_facts c Hc) as (Hw & H93 & H125 & _).
  exists c, t'. split; [reflexivity|]. cbn [app skip_ws]. rewrite Hw. auto.
Qed.

Lemma all_some_map {A B} (g : A -> option B) (l : list A) (ps : list B) :
  all_some (map g l) = Some ps -> Forall2 (fun x p => g x = Some p) l ps.
Proof.
  revert ps. induction l as [|x l IH]; intros ps H.
  - injection H as <-. constructor.
  - cbn [map all_some] in H. destruct (g x) as [p|] eqn:E; [|discriminate].
    destruct (all_some (map g l)) as [qs|]; [|discriminate]. cbn in H. injection H as <-.
    constructor; [exact E|apply IH; reflexivity].
Qed.

Lemma skip_ws_head (c : Z) (s : jsstr) : is_ws c = false -> skip_ws (c :: s) = c :: s.
Proof. intro H. cbn [skip_ws]. rewrite H. reflexivity. Qed.

Lemma delim_ws (w' r : jsstr) (cl : Z) : ws w' -> In cl [44; 125; 93] -> delim (w' ++ cl :: r).
Proof.
  intros Hw Hc. destruct Hw as [|c w Hc' _]; [cbn in *; tauto|].
  cbn. unfold is_ws in Hc'.
  repeat (apply orb_true_iff in Hc' as [Hc'|Hc']); apply Z.eqb_eq in Hc'; subst; tauto.
Qed.

Lemma units_okb_ok (s : jsstr) : units_okb s = true -> units_ok s.
Proof.
  intro H. apply Forall_forall. intros c Hc. unfold units_okb in H.
  rewrite forallb_forall in H. specialize (H c Hc).
  apply andb_true_iff in H as [H1 H2]. apply Z.leb_le in H1. apply Z.ltb_lt in H2. lia.
Qed.

Lemma jsval_ind' (P : jsval -> Prop)
  (Hnull : P JNull) (Hbool : forall b, P (JBool b)) (Hnum : forall m e, P (JNum m e))
  (Hstr : forall s, P (JStr s))
  (Harr : forall items, Forall P items -> P (JArr items))
  (Hobj : forall fields, Forall (fun kv => P (snd kv)) fields -> P (JObj fields)) :
  forall v, P v.
Proof.
  fix IH 1. intros [| b | m e | s | items | fields].
  - exact Hnull.
  - apply Hbool.
  - apply Hnum.
  - apply Hstr.
  - apply Harr.
    exact ((fix G (l : list jsval) : Forall P l :=
              match l with
              | [] => Forall_nil P
              | x :: r => @Forall_cons _ P x r (IH x) (G r)
              end) items).
  - apply Hobj.
    exact ((fix G (l : list (jsstr * jsval)) : Forall (fun kv => P (snd kv)) l :=
              match l with
              | [] => Forall_nil _
              | kv :: r => @Forall_cons _ (fun kv => P (snd kv)) kv r (IH (snd kv)) (G r)
              end) fields).
Qed.

Lemma join_cons2 (sep x y : jsstr) (l : list jsstr) :
  join sep (x :: y :: l) = x ++ sep ++ join sep (y :: l).
Proof. reflexivity. Qed.

Lemma parse_elements_ok (gap ind : jsstr) (xs : list jsval) :
  Forall (fun x => forall t w rest fuel, ws w -> printable x = true -> ser gap ind x = Some t ->
            delim rest -> (jsize x <= fuel)%nat ->
            parse_value fuel (w ++ t ++ rest) = Some (x, rest)) xs ->
  forall ps acc w w' rest fuel,
  Forall2 (fun x p => ser gap ind x = Some p) xs ps -> xs <> [] -> ws w -> ws w' ->
  forallb printable xs = true -> delim rest ->
  (list_sum (map (fun x => S (jsize x)) xs) <= fuel)%nat ->
  parse_elements fuel acc (w ++ join (44 :: w) ps ++ w' ++ 93 :: rest)
  = Some (JArr (acc ++ xs), rest).
Proof.
  induction 1 as [|x xs Hx Hxs IH];
    intros ps acc w w' rest fuel H2 Hne Hw Hw' Hp Hr Hf; [contradiction|].
  inversion H2 as [|? p ? ps' Hxp Hps]; subst.
  cbn [forallb] in Hp. apply andb_true_iff in Hp as [Hpx Hps'].
  cbn [map list_sum fold_right] in Hf.
  destruct fuel as [|f]; [lia|].
  destruct xs as [|x2 xs'].
  - inversion Hps; subst. cbn [join parse_elements].
    rewrite (Hx p w (w' ++ 93 :: rest) f Hw Hpx Hxp) by (try apply delim_ws; cbn; auto; lia).
    rewrite skip_ws_app by exact Hw'. rewrite skip_ws_head by reflexivity. reflexivity.
  - inversion Hps as [|? p2 ? ps2 Hxp2 Hps2]; subst.
    rewrite join_cons2.
    cbn [parse_elements].
    rewrite <- !app_assoc. cbn [app].
    rewrite (Hx p w (44 :: w ++ join (44 :: w) (p2 :: ps2) ++ w' ++ 93 :: rest) f Hw Hpx Hxp)
      by (cbn; auto; lia).
    rewrite skip_ws_head by reflexivity.
    rewrite IH with (w' := w') by (auto; try discriminate; cbn [map list_sum fold_right] in *; lia).
    rewrite <- app_assoc. reflexivity.
Qed.

Lemma parse_members_ok (gap ind sp : jsstr) (fs : list (jsstr * jsval)) :
  Forall (fun kv => forall t w rest fuel, ws w -> printable (snd kv) = true ->
            ser gap ind (snd kv) = Some t -> delim rest -> (jsize (snd kv) <= fuel)%nat ->
            parse_value fuel (w ++ t ++ rest) = Some (snd kv, rest)) fs ->
  forall ps acc w w' rest fuel,
  Forall2 (fun kv p => exists t, ser gap ind (snd kv) = Some t
                                 /\ p = quote (fst kv) ++ [58] ++ sp ++ t) fs ps ->
  fs <> [] -> ws w -> ws w' -> ws sp ->
  forallb (fun kv => units_okb (fst kv) && printable (snd kv)) fs = true -> delim rest ->
  (list_sum (map (fun kv => S (jsize (snd kv))) fs) <= fuel)%nat ->
  parse_members fuel acc (w ++ join (44 :: w) ps ++ w' ++ 125 :: rest)
  = Some (JObj (acc ++ fs), rest).
Proof.
  induction 1 as [|[k v] fs Hx Hfs IH];
    intros ps acc w w' rest fuel H2 Hne Hw Hw' Hsp Hp Hr Hf; [contradiction|].
  inversion H2 as [|? p ? ps' [t [Ht ->]] Hps]; subst.
  cbn [forallb fst snd] in Hp, Hx, Ht. apply andb_true_iff in Hp as [Hp1 Hps'].
  apply andb_true_iff in Hp1 as [Hk Hpv].
  cbn [map list_sum fold_right snd] in Hf.
  destruct fuel as [|f]; [lia|].
  assert (Hstep : forall tail, delim tail ->
    parse_members (S f) acc (w ++ (quote k ++ [58] ++ sp ++ t) ++ tail)
    = match skip_ws tail with
      | 44 :: r4 => parse_members f (acc ++ [(k, v)]) r4
      | 125 :: r4 => Some (JObj (acc ++ [(k, v)]), r4)
      | _ => None
      end).
  { intros tail Htail. rewrite pm_ws by exact Hw. unfold quote.
    rewrite <- !app_assoc. cbn [app parse_members].
    rewrite skip_ws_head by reflexivity.
    rewrite <- (app_assoc (quote_units k) [34]). cbn [app].
    rewrite psb_quote_units by (apply units_okb_ok; exact Hk).
    rewrite skip_ws_head by reflexivity.
    rewrite (Hx t sp tail f Hsp Hpv Ht Htail) by lia. reflexivity. }
  destruct fs as [|kv2 fs'].
  - inversion Hps; subst. cbn [join].
    rewrite Hstep by (apply delim_ws; cbn; auto).
    rewrite skip_ws_app by exact Hw'. rewrite skip_ws_head by reflexivity. reflexivity.
  - inversion Hps as [|? p2 ? ps2 Hxp2 Hps2]; subst.
    cbn [fst] in *. rewrite join_cons2.
    rewrite <- app_assoc. rewrite Hstep by (cbn; auto).
    rewrite <- app_assoc. cbn [app]. rewrite skip_ws_head by reflexivity.
    rewrite IH with (w' := w') by (auto; try discriminate; cbn [map list_sum fold_right] in *; lia).
    rewrite <- app_assoc. reflexivity.
Qed.

Lemma number_head' (m : Z) (t : jsstr) : number_text m 0 = Some t ->
  exists c t', t = c :: t' /\ (c = 45 \/ 48 <= c <= 57).
Proof.
  unfold number_text. cbn [Z.eqb andb]. destruct (Z.abs m <=? 2 ^ 53); [|discriminate].
  intro H. injection H as <-. destruct (m <? 0) eqn:Hn.
  - eexists _, _. split; [reflexivity|]. lia.
  - apply Z.ltb_ge in Hn. destruct (number_string_spec m Hn) as [d [ds [-> [Hd _]]]].
    inversion Hd; subst. eexists _, _. split; [reflexivity|]. lia.
Qed.

Lemma pv_str (f : nat) (x : jsstr) :
  parse_value (S f) (34 :: x)
  = match parse_string_body x with Some (str, rest) => Some (JStr str, rest) | None => None end.
Proof. reflexivity. Qed.

Lemma join_head (sep p : jsstr) (ps : list jsstr) : exists x, join sep (p :: ps) = p ++ x.
Proof. destruct ps; [exists []; symmetry; apply app_nil_r|eexists; reflexivity]. Qed.

Lemma option_map_some {A B} (f : A -> B) (o : option A) (b : B) :
  option_map f o = Some b -> exists a, o = Some a /\ b = f a.
Proof. destruct o as [a|]; [intro H; injection H as <-; eauto|discriminate]. Qed.

Lemma sep_ws (gap : jsstr) : ws (match gap with [] => [] | _ :: _ => [32] end).
Proof. destruct gap; repeat constructor. Qed.

Lemma ser_parse (v : jsval) : forall gap ind t w rest fuel,
  spaces gap -> spaces ind -> ws w -> printable v = true -> ser gap ind v = Some t ->
  delim rest -> (jsize v <= fuel)%nat ->
  parse_value fuel (w ++ t ++ rest) = Some (v, rest).
Proof.
  induction v as [| b | m e | str | items IH | fields IH] using jsval_ind';
    intros gap ind t w rest fuel Hg Hi Hw Hp Ht Hr Hf;
    (destruct fuel as [|f]; [cbn [jsize] in Hf; lia|]); rewrite pv_ws by exact Hw.
  - injection Ht as <-. reflexivity.
  - destruct b; injection Ht as <-; reflexivity.
  - cbn [printable] in Hp. apply andb_true_iff in Hp as [He _]. apply Z.eqb_eq in He. subst e.
    cbn [ser] in Ht. destruct (number_head' m t Ht) as [c [t' [-> Hc]]].
    cbn [app]. rewrite pv_num by exact Hc. exact (parse_number_text m (c :: t') rest Ht Hr).
  - injection Ht as <-. unfold quote. cbn [app]. rewrite <- app_assoc. cbn [app].
    rewrite pv_str. rewrite psb_quote_units by (apply units_okb_ok; exact Hp). reflexivity.
  - cbn [ser] in Ht. apply option_map_some in Ht as [ps [Hps ->]].
    apply all_some_map in Hps. cbn [printable] in Hp. cbn [jsize] in Hf.
    destruct ps as [|p ps'].
    + inversion Hps; subst. reflexivity.
    + destruct (wrap_shape 91 93 gap ind (p :: ps') Hg Hi ltac:(discriminate))
        as [w0 [w0' [Hw0 [Hw0' ->]]]].
      cbn [app]. rewrite <- !app_assoc. cbn [app].
      inversion Hps as [|x p0 xs p1 Hxp Hps']; subst.
      rewrite pv_arr.
      * apply (parse_elements_ok gap (ind ++ gap) (x :: xs)); auto; try discriminate; try lia.
        eapply Forall_impl; [|exact IH]. cbn beta. intros y Hy t1 w1 rest1 fuel1 Hw1 Hp1 Ht1 Hr1 Hf1.
        apply (Hy gap (ind ++ gap)); auto. unfold spaces in *. apply Forall_app; auto.
      * intros r'. rewrite skip_ws_app by exact Hw0.
        destruct (join_head (44 :: w0) p ps') as [x0 ->].
        destruct (skip_ws_value gap (ind ++ gap) x p (x0 ++ w0' ++ 93 :: rest) Hxp)
          as [c [p' [-> [Hs [H93 _]]]]].
        rewrite <- app_assoc, Hs. cbn [app]. intro E. injection E. auto.
  - cbn [ser] in Ht. apply option_map_some in Ht as [ps [Hps ->]].
    apply all_some_map in Hps. cbn [printable] in Hp. cbn [jsize] in Hf.
    assert (Hps2 : Forall2 (fun kv p => exists t, ser gap (ind ++ gap) (snd kv) = Some t
                    /\ p = quote (fst kv) ++ [58] ++ match gap with [] => [] | _ :: _ => [32] end ++ t)
                    fields ps).
    { eapply Forall2_impl; [|exact Hps]. intros kv p Hkv. apply option_map_some in Hkv.
      destruct Hkv as [t0 [H1 H2]]. exists t0. split; [exact H1|exact H2]. }
    destruct ps as [|p ps'].
    + inversion Hps; subst. reflexivity.
    + destruct (wrap_shape 123 125 gap ind (p :: ps') Hg Hi ltac:(discriminate))
        as [w0 [w0' [Hw0 [Hw0' ->]]]].
      cbn [app]. rewrite <- !app_assoc. cbn [app].
      inversion Hps2 as [|kv p0 kvs p1 [t0 [Hkv ->]] Hps']; subst.
      rewrite pv_obj.
      * apply (parse_members_ok gap (ind ++ gap) (match gap with [] => [] | _ :: _ => [32] end) (kv :: kvs)); auto; try discriminate; try lia.
        -- eapply Forall_impl; [|exact IH]. cbn beta. intros y Hy t1 w1 rest1 fuel1 Hw1 Hp1 Ht1 Hr1 Hf1.
           apply (Hy gap (ind ++ gap)); auto. unfold spaces in *. apply Forall_app; auto.
        -- apply sep_ws.
      * intros r'. rewrite skip_ws_app by exact Hw0.
        match goal with |- context [join ?sp (?q :: ?qs)] =>
          destruct (join_head sp q qs) as [x0 ->] end.
        cbn [app]. rewrite skip_ws_head by reflexivity. discriminate.
Qed.

Lemma all_some_total {A B} (g : A -> option B) (l : list A) :
  Forall (fun x => exists y, g x = Some y) l -> exists ys, all_some (map g l) = Some ys.
Proof.
  induction 1 as [|x l [y Hy] _ [ys Hys]]; [exists []; reflexivity|].
  exists (y :: ys). cbn [map all_some]. rewrite Hy, Hys. reflexivity.
Qed.

Lemma ser_some (v : jsval) : forall gap ind, printable v = true ->
  exists t, ser gap ind v = Some t.
Proof.
  induction v as [| b | m e | str | items IH | fields IH] using jsval_ind';
    intros gap ind Hp; cbn [ser].
  - eauto.
  - destruct b; eauto.
  - cbn [printable] in Hp. unfold number_text. rewrite Hp. eauto.
  - eauto.
  - cbn [printable] in Hp. rewrite forallb_forall in Hp.
    destruct (all_some_total (ser gap (ind ++ gap)) items) as [ps ->]; [|eexists; reflexivity].
    apply Forall_forall. intros x Hx. rewrite Forall_forall in IH. exact (IH x Hx gap _ (Hp x Hx)).
  - cbn [printable] in Hp. rewrite forallb_forall in Hp.
    match goal with |- context [all_some (map ?g fields)] =>
      destruct (all_some_total g fields) as [ps ->]; [|eexists; reflexivity] end.
    apply Forall_forall. intros kv Hkv. rewrite Forall_forall in IH.
    specialize (Hp kv Hkv). apply andb_true_iff in Hp as [_ Hp].
    destruct (IH kv Hkv gap (ind ++ gap) Hp) as [t ->]. eexists; reflexivity.
Qed.

Lemma join_len (sep : jsstr) (ps : list jsstr) : (1 <= List.length sep)%nat ->
  (list_sum (map (fun p => S (List.length p)) ps) <= List.length (join sep ps) + 1)%nat.
Proof.
  intro Hs. unfold list_sum. induction ps as [|p [|q r] IH]; cbn [map fold_right join]; [lia|lia|].
  cbn [map fold_right join] in IH. rewrite !length_app. lia.
Qed.

Lemma sum_Forall2 {A B} (f : A -> nat) (g : B -> nat) (xs : list A) (ys : list B) :
  Forall2 (fun x y => (f x <= g y)%nat) xs ys ->
  (list_sum (map f xs) <= list_sum (map g ys))%nat.
Proof. unfold list_sum. induction 1; cbn [map fold_right]; lia. Qed.

Lemma Forall2_Forall {A B} (P : A -> Prop) (R : A -> B -> Prop) xs ys :
  Forall2 R xs ys -> Forall P xs -> Forall2 (fun x y => P x /\ R x y) xs ys.
Proof. induction 1; intro HP; inversion HP; subst; constructor; auto. Qed.

Lemma ser_size (v : jsval) : forall gap ind t, spaces gap -> spaces ind ->
  ser gap ind v = Some t -> (jsize v <= List.length t)%nat.
Proof.
  induction v as [| b | m e | str | items IH | fields IH] using jsval_ind';
    intros gap ind t Hg Hi Ht; cbn [ser jsize] in Ht |- *.
  - injection Ht as <-. cbn. lia.
  - destruct b; injection Ht as <-; cbn; lia.
  - unfold number_text in Ht. destruct (e =? 0) eqn:He; [|cbn in Ht; discriminate].
    apply Z.eqb_eq in He. subst e.
    destruct (number_head' m t Ht) as [c [t' [-> _]]]. cbn. lia.
  - injection Ht as <-. cbn. lia.
  - apply option_map_some in Ht as [ps [Hps ->]]. apply all_some_map in Hps.
    destruct ps as [|p ps']; [inversion Hps; subst; cbn; lia|].
    destruct (wrap_shape 91 93 gap ind (p :: ps') Hg Hi ltac:(discriminate))
      as [w0 [w0' [_ [_ ->]]]].
    cbn [List.length]. rewrite !length_app.
    pose proof (join_len (44 :: w0) (p :: ps') ltac:(cbn; lia)).
    assert (list_sum (map (fun x => S (jsize x)) items)
            <= list_sum (map (fun p => S (List.length p)) (p :: ps')))%nat;
      [|cbn [List.length] in *; lia].
    apply sum_Forall2. eapply Forall2_impl; [|exact (Forall2_Forall _ _ _ _ Hps IH)].
    cbn beta. intros x q [Hx Hxq].
    assert (Hsp : spaces (ind ++ gap)) by (apply Forall_app; auto).
    specialize (Hx gap (ind ++ gap) q Hg Hsp Hxq). lia.
  - apply option_map_some in Ht as [ps [Hps ->]]. apply all_some_map in Hps.
    destruct ps as [|p ps']; [inversion Hps; subst; cbn; lia|].
    destruct (wrap_shape 123 125 gap ind (p :: ps') Hg Hi ltac:(discriminate))
      as [w0 [w0' [_ [_ ->]]]].
    cbn [List.length]. rewrite !length_app.
    pose proof (join_len (44 :: w0) (p :: ps') ltac:(cbn; lia)).
    assert (list_sum (map (fun kv => S (jsize (snd kv))) fields)
            <= list_sum (map (fun p => S (List.length p)) (p :: ps')))%nat;
      [|cbn [List.length] in *; lia].
    apply sum_Forall2. eapply Forall2_impl; [|exact (Forall2_Forall _ _ _ _ Hps IH)].
    cbn beta. intros kv q [Hx Hxq]. apply option_map_some in Hxq as [t0 [Ht0 ->]].
    assert (Hsp : spaces (ind ++ gap)) by (apply Forall_app; auto).
    specialize (Hx gap (ind ++ gap) t0 Hg Hsp Ht0).
    unfold quote. cbn [List.length app]. rewrite !length_app. destruct gap; cbn [app List.length]; lia.
Qed.

(** [JSON.parse(JSON.stringify(v, null, gap))] gives [v] back. *)
Lemma stringify_parse (gap : jsstr) (v : jsval) :
  spaces gap -> printable v = true ->
  exists t, stringify gap v = Some t /\ json_parse t = Some v.
Proof.
  intros Hg Hp. destruct (ser_some v gap [] Hp) as [t Ht]. exists t.
  split; [exact Ht|].
  assert (Hs := ser_size v gap [] t Hg (Forall_nil _) Ht).
  assert (H := ser_parse v gap [] t [] [] (2 * List.length t + 2) Hg (Forall_nil _)
                 (Forall_nil _) Hp Ht I ltac:(lia)).
  rewrite app_nil_r in H. cbn [app] in H.
  unfold json_parse. rewrite H. reflexivity.
Qed.

End RoundTrip.

Module KeyFacts.
Import NumFacts.

Lemma map_add_inj (a b : list Z) : map (Z.add 48) a = map (Z.add 48) b -> a = b.
Proof.
  revert b; induction a as [|x a IH]; intros [|y b] H; try discriminate; [reflexivity|].
  cbn [map] in H. assert (Hxy : 48 + x = 48 + y) by congruence.
  assert (Hab : map (Z.add 48) a = map (Z.add 48) b) by congruence.
  f_equal; [lia|auto].
Qed.

Lemma number_string_inj (a b : Z) : 0 <= a -> 0 <= b ->
  number_string a = number_string b -> a = b.
Proof.
  intros Ha Hb H.
  destruct (number_string_spec a Ha) as [d [ds [Ea [_ [Va _]]]]].
  destruct (number_string_spec b Hb) as [d' [ds' [Eb [_ [Vb _]]]]].
  rewrite Ea, Eb in H. apply map_add_inj in H. rewrite <- Va, <- Vb, H. reflexivity.
Qed.

Lemma number_string_digits (n : Z) : 0 <= n ->
  Forall (fun c => 48 <= c <= 57) (number_string n).
Proof.
  intro Hn. destruct (number_string_spec n Hn) as [d [ds [E [Hd _]]]]. rewrite E.
  apply Forall_map. eapply Forall_impl; [|exact Hd]. cbn beta. intros x Hx. lia.
Qed.

Lemma no_unit_digits (c n : Z) : 0 <= n -> (c < 48 \/ 57 < c) -> ~ In c (number_string n).
Proof.
  intros Hn Hc Hin. pose proof (number_string_digits n Hn) as H.
  rewrite Forall_forall in H. specialize (H c Hin). lia.
Qed.

(** The last separator splits: what follows it has no separator. *)
Lemma split_last (sep : Z) (m1 m2 d1 d2 : list Z) : ~ In sep d1 -> ~ In sep d2 ->
  m1 ++ sep :: d1 = m2 ++ sep :: d2 -> m1 = m2 /\ d1 = d2.
Proof.
  intros H1 H2. revert m2; induction m1 as [|a m1 IH]; intros [|b m2] H; cbn [app] in H.
  - injection H as ->. auto.
  - injection H as <- H. exfalso. apply H1. rewrite H. apply in_or_app. right; left; reflexivity.
  - injection H as -> H. exfalso. apply H2. rewrite <- H. apply in_or_app. right; left; reflexivity.
  - injection H as -> H. destruct (IH m2 H) as [-> ->]. auto.
Qed.

(** The first separator splits: what precedes it has no separator. *)
Lemma split_first (sep : Z) (d1 d2 r1 r2 : list Z) : ~ In sep d1 -> ~ In sep d2 ->
  d1 ++ sep :: r1 = d2 ++ sep :: r2 -> d1 = d2 /\ r1 = r2.
Proof.
  intros H1 H2. revert d2 H2; induction d1 as [|a d1 IH]; intros [|b d2] H2 H; cbn [app] in H.
  - injection H as ->. auto.
  - injection H as <- _. exfalso. apply H2. left; reflexivity.
  - injection H as -> _. exfalso. apply H1. left; reflexivity.
  - injection H as -> H. destruct (IH (fun h => H1 (or_intror h)) d2 (fun h => H2 (or_intror h)) H)
      as [-> ->]. auto.
Qed.

End KeyFacts.

Module CacheLaws.

Lemma cache_find_del_other (k k' : jsstr) (c : Cache) : k' <> k ->
  cache_find k' (cache_del k c) = cache_find k' c.
Proof.
  intro Hne. unfold cache_del. induction c as [|[k0 e] c IH]; [reflexivity|].
  cbn [filter fst]. destruct (jsstr_eqb k k0) eqn:E; cbn [negb].
  - apply jsstr_eqb_eq in E. subst k0. cbn [cache_find]. rewrite (jsstr_eqb_neq k' k Hne). exact IH.
  - cbn [cache_find]. rewrite IH. reflexivity.
Qed.

Lemma cache_find_del_same (k : jsstr) (c : Cache) : cache_find k (cache_del k c) = None.
Proof.
  unfold cache_del. induction c as [|[k0 e] c IH]; [reflexivity|].
  cbn [filter fst]. destruct (jsstr_eqb k k0) eqn:E; cbn [negb]; [exact IH|].
  cbn [cache_find]. rewrite E. exact IH.
Qed.

Lemma cache_del_idem (k : jsstr) (c : Cache) : cache_del k (cache_del k c) = cache_del k c.
Proof.
  unfold cache_del. induction c as [|e c IH]; [reflexivity|].
  cbn [filter]. destruct (negb (jsstr_eqb k (fst e))) eqn:E; [|exact IH].
  cbn [filter]. rewrite E, IH. reflexivity.
Qed.

Lemma cache_del_cons_same (k : jsstr) (e : jsstr * Z) (c : Cache) :
  cache_del k ((k, e) :: c) = cache_del k c.
Proof. unfold cache_del. cbn [filter fst]. rewrite jsstr_eqb_refl. reflexivity. Qed.






Lemma run_snd_cons (toLowerCase : jsstr -> jsstr) (s : Server) (r : Request) (rs : list Request) :
  snd (run toLowerCase s (r :: rs)) = snd (run toLowerCase (snd (step toLowerCase s r)) rs).
Proof.
  cbn [run]. destruct (step toLowerCase s r) as [resp s1].
  cbn [snd]. destruct (run toLowerCase s1 rs). reflexivity.
Qed.


(** A value set with [appCache.set] is returned by [get] until its TTL
    has passed, and the cache is left as it is. *)
Theorem cache_get_after_set (now now' : Z) (k v : jsstr) (c : Cache) :
  now' <= now + stdTTL_ms ->
  cache_get now' k (cache_set now k v c) = (Some v, cache_set now k v c).
Proof.
  intro H. unfold cache_get. rewrite cache_find_set.
  apply Z.leb_le in H. rewrite H. reflexivity.
Qed.

(** After the TTL, [get] reports the key as absent and deletes it: the
    cache is the one before the [set], less that key. *)
Theorem cache_get_after_expiry (now now' : Z) (k v : jsstr) (c : Cache) :
  now + stdTTL_ms < now' ->
  cache_get now' k (cache_set now k v c) = (None, cache_del k c) /\
  cache_find k (cache_del k c) = None.
Proof.
  intro H. unfold cache_get. rewrite cache_find_set.
  replace (now' <=? now + stdTTL_ms) with false by (symmetry; apply Z.leb_gt; lia).
  split; [|apply cache_find_del_same].
  unfold cache_set. rewrite cache_del_cons_same, cache_del_idem. reflexivity.
Qed.

(** A [set] changes the lookup of its own key only. *)
Theorem cache_set_other_key (now : Z) (k k' v : jsstr) (c : Cache) : k' <> k ->
  cache_find k' (cache_set now k v c) = cache_find k' c.
Proof.
  intro Hne. unfold cache_set. cbn [cache_find]. rewrite (jsstr_eqb_neq k' k Hne).
  apply cache_find_del_other. exact Hne.
Qed.

(** Distinct (message, history length) pairs have distinct cache keys. *)
Theorem cacheKey_injective (m1 m2 : jsstr) (h1 h2 : list (jsstr * jsstr)) :
  cacheKey m1 h1 = cacheKey m2 h2 -> m1 = m2 /\ List.length h1 = List.length h2.
Proof.
  unfold cacheKey. intro H. apply app_inv_head in H.
  change (js "_") with [95] in H. cbn [app] in H.
  apply KeyFacts.split_last in H as [-> Hn];
    [|apply KeyFacts.no_unit_digits; [apply zlen_nonneg|lia]..].
  split; [reflexivity|]. apply KeyFacts.number_string_inj in Hn; try apply zlen_nonneg.
  unfold zlen in Hn. lia.
Qed.

End CacheLaws.

Module MulterFacts.

(** The stored name has the length of the original one and only the units
    [A-Za-z0-9._-]; in particular no "/", so it stays in the upload
    directory. *)
Theorem safeName_shape (s : jsstr) :
  List.length (safeName s) = List.length s /\ Forall kept (safeName s) /\ ~ In 47 (safeName s).
Proof.
  unfold safeName. split; [apply length_map|].
  assert (Hk : Forall kept (map (fun c => if safe_unit c then c else 95) s)).
  { apply Forall_forall. intros x Hx. apply in_map_iff in Hx as [c [<- _]].
    unfold kept. destruct (safe_unit c) eqn:E; [left; exact E|right; reflexivity]. }
  split; [exact Hk|]. intro Hin. rewrite Forall_forall in Hk.
  destruct (Hk 47 Hin) as [H|H]; [discriminate|discriminate].
Qed.

(** The names [safeName] leaves unchanged are exactly those over
    [A-Za-z0-9._-]; so applying it twice is applying it once. *)
Theorem safeName_fixed (s : jsstr) : safeName s = s <-> Forall kept s.
Proof.
  unfold safeName. split.
  - intro H. rewrite <- H. apply Forall_forall. intros x Hx. apply in_map_iff in Hx as [c [<- _]].
    unfold kept. destruct (safe_unit c) eqn:E; [left; exact E|right; reflexivity].
  - induction 1 as [|c s Hc _ IH]; [reflexivity|]. cbn [map]. rewrite IH. f_equal.
    destruct Hc as [Hc| ->]; [rewrite Hc; reflexivity|reflexivity].
Qed.

(** The stored file name determines the upload time and the sanitised
    name: the first "-" ends the timestamp. *)
Theorem filename_injective (t1 t2 : Z) (n1 n2 : jsstr) : 0 <= t1 -> 0 <= t2 ->
  Multer.filename t1 n1 = Multer.filename t2 n2 -> t1 = t2 /\ safeName n1 = safeName n2.
Proof.
  intros H1 H2 H. unfold Multer.filename in H. cbn [app] in H.
  apply KeyFacts.split_first in H as [Hd ->];
    [|apply KeyFacts.no_unit_digits; [exact H1|lia]|apply KeyFacts.no_unit_digits; [exact H2|lia]].
  split; [|reflexivity]. apply KeyFacts.number_string_inj; assumption.
Qed.

End MulterFacts.

Module MetadataFacts.

Lemma empty_object_metadata : metadata_of None = MetaOk no_metadata.
Proof. reflexivity. Qed.

(** A metadata field that is not JSON is the same as no field at all. *)
Theorem upload_malformed_metadata (toLowerCase : jsstr -> jsstr) (s : Server) (now : Z)
    (file : option UploadedFile) (t : jsstr) (rd : Readers) (uuid : jsstr) :
  json_parse t = None ->
  upload_request toLowerCase s now file (Some t) rd uuid
  = upload_request toLowerCase s now file None rd uuid.
Proof.
  intro H. unfold upload_request. destruct file as [f|]; [|reflexivity].
  rewrite empty_object_metadata. unfold metadata_of.
  destruct (jsstr_eqb t []) eqn:E; [reflexivity|]. rewrite H. reflexivity.
Qed.

(** A metadata field that parses to [null] makes the upload fail with a
    500 after multer stored the file: the collection, db.json and the
    cache are untouched and the stored file belongs to no record. *)
Theorem upload_null_metadata (toLowerCase : jsstr -> jsstr) (s : Server) (now : Z)
    (f : UploadedFile) (t : jsstr) (rd : Readers) (uuid : jsstr) :
  json_parse t = Some JNull -> ~ In (file_path f) (map path (files s)) ->
  exists s',
    upload_request toLowerCase s now (Some f) (Some t) rd uuid
      = Some (JsonResp 500 (JObj [(js "error", JStr (js "Processing failed"))]), s')
    /\ files s' = files s /\ cache s' = cache s /\ db_writes s' = db_writes s
    /\ In (file_path f) (disk s') /\ ~ In (file_path f) (map path (files s')).
Proof.
  intros H Hp. unfold upload_request, metadata_of.
  destruct (jsstr_eqb t []) eqn:E.
  - apply jsstr_eqb_eq in E. subst t. discriminate H.
  - rewrite H. eexists. split; [reflexivity|]. cbn. repeat split; auto.
Qed.

End MetadataFacts.

Module ChatFacts.
Import Chat.

(** What the model receives from the client's history: the user messages
    and the model messages that are not loading, in order, then the
    question. *)
Theorem contents_of_client_history (history : list Message) (message : jsstr) :
  contents (client_history history) message
  = map (fun h => (role h, text h))
        (filter (fun m => jsstr_eqb (role m) (js "user")
                          || (jsstr_eqb (role m) (js "model") && negb (isLoading m)))
                history)
    ++ [(js "user", message)].
Proof.
  unfold contents, client_history. f_equal. f_equal.
  induction history as [|m h IH]; [reflexivity|]. cbn [filter].
  assert (Hm : (negb (jsstr_eqb (role m) (js "model")) || negb (isLoading m))
               && (jsstr_eqb (role m) (js "user") || jsstr_eqb (role m) (js "model"))
             = jsstr_eqb (role m) (js "user")
               || (jsstr_eqb (role m) (js "model") && negb (isLoading m))).
  { destruct (jsstr_eqb (role m) (js "user")) eqn:Eu.
    - apply jsstr_eqb_eq in Eu. rewrite Eu. reflexivity.
    - destruct (jsstr_eqb (role m) (js "model")), (isLoading m); reflexivity. }
  destruct (negb (jsstr_eqb (role m) (js "model")) || negb (isLoading m)) eqn:Ec;
    cbn [filter andb] in Hm |- *.
  - rewrite <- Hm, IH. reflexivity.
  - rewrite <- Hm, IH. reflexivity.
Qed.

End ChatFacts.

Module InvariantFacts.

Lemma ask_upstream_frame (s : Server) (c1 : Cache) (now : Z) (key : jsstr) (up : Upstream) :
  files (snd (ask_upstream s c1 now key up)) = files s
  /\ disk (snd (ask_upstream s c1 now key up)) = disk s
  /\ db_writes (snd (ask_upstream s c1 now key up)) = db_writes s.
Proof. destruct up; cbn; auto. Qed.

Lemma ask_frame (s : Server) (now : Z) (k : option jsstr) (msg : jsstr)
    (h : list (jsstr * jsstr)) (up : Upstream) :
  files (snd (ask s now k msg h up)) = files s
  /\ disk (snd (ask s now k msg h up)) = disk s
  /\ db_writes (snd (ask s now k msg h up)) = db_writes s.
Proof.
  unfold ask. destruct k as [[|c k]|]; cbn [snd]; auto.
  destruct (cache_get now (cacheKey msg h) (cache s)) as [[v|] c1];
    [destruct (negb (jsstr_eqb v []))|]; cbn; auto using ask_upstream_frame.
Qed.

Lemma remove_file_split (i : jsstr) (l : list FileRecord) (f : FileRecord) :
  find_file i l = Some f -> exists a b, l = a ++ f :: b /\ remove_file i l = a ++ b.
Proof.
  induction l as [|g l IH]; cbn [find_file remove_file]; [discriminate|].
  destruct (jsstr_eqb (id g) i).
  - intro H. injection H as ->. exists [], l. auto.
  - intro H. destruct (IH H) as [a [b [-> ->]]]. exists (g :: a), b. auto.
Qed.

Lemma NoDup_snoc {A} (l : list A) (x : A) : NoDup l -> ~ In x l -> NoDup (l ++ [x]).
Proof.
  intros Hl Hx. apply Permutation_NoDup with (x :: l); [apply Permutation_cons_append|].
  constructor; assumption.
Qed.

Lemma step_consistent (toLowerCase : jsstr -> jsstr) (s : Server) (r : Request) :
  consistent s -> fresh s r -> consistent (snd (step toLowerCase s r)).
Proof.
  intros [Hid [Hp Hd]] Hf. destruct r as [now f m rd uuid| |i|now k msg h up]; cbn [step snd].
  - destruct f as [f|]; [|split; auto]. cbn [fresh] in Hf. destruct Hf as [Fu Fp].
    unfold upload, consistent. cbn [snd files disk]. rewrite !map_app. cbn [map id path].
    split; [apply NoDup_snoc; auto|]. split.
    + apply NoDup_snoc; [exact Hp|]. intro Hin. apply in_map_iff in Hin as [g [Hg Hin]].
      rewrite Forall_forall in Hd. apply Fp. rewrite <- Hg. apply Hd. exact Hin.
    + apply Forall_app. split.
      * eapply Forall_impl; [|exact Hd]. intros g Hg. right. exact Hg.
      * constructor; [left; reflexivity|constructor].
  - split; auto.
  - unfold delete. destruct (find_file i (files s)) as [f|] eqn:Ef; [|split; auto].
    destruct (remove_file_split _ _ _ Ef) as [a [b [El Er]]].
    unfold consistent; cbn [snd files disk]. rewrite Er. rewrite El in Hid, Hp, Hd.
    rewrite map_app in Hid, Hp. rewrite !map_app. cbn [map] in Hid, Hp.
    split; [eapply NoDup_remove_1; exact Hid|]. split; [eapply NoDup_remove_1; exact Hp|].
    apply Forall_forall. intros g Hg.
    assert (Hne : path f <> path g).
    { intro E. apply (NoDup_remove_2 _ _ _ Hp). rewrite E, <- map_app. apply in_map. exact Hg. }
    assert (Hgd : In (path g) (disk s)).
    { rewrite Forall_forall in Hd. apply Hd. apply in_app_or in Hg. apply in_or_app.
      destruct Hg; [left|right; right]; assumption. }
    destruct (existsb (jsstr_eqb (path f)) (disk s)); [|exact Hgd].
    apply filter_In. split; [exact Hgd|]. rewrite (jsstr_eqb_neq _ _ Hne). reflexivity.
  - destruct (ask_frame s now k msg h up) as [E1 [E2 _]].
    unfold consistent. rewrite E1, E2. auto.
Qed.

(** With fresh ids and paths, ids stay unique, paths stay unique and every
    record's file stays on disk, over any sequence of requests. *)
Theorem run_consistent (toLowerCase : jsstr -> jsstr) (s : Server) (rs : list Request) :
  consistent s -> fresh_run toLowerCase s rs -> consistent (snd (run toLowerCase s rs)).
Proof.
  revert s; induction rs as [|r rs IH]; intros s Hc Hf; [exact Hc|].
  destruct Hf as [Hf Hrest]. rewrite CacheLaws.run_snd_cons.
  apply IH; [apply step_consistent|]; assumption.
Qed.

(** db.json is written exactly when the collection changes: once per
    request that changes it, never otherwise. *)
Theorem db_written_iff_changed (toLowerCase : jsstr -> jsstr) (s : Server) (r : Request) :
  (files (snd (step toLowerCase s r)) = files s
   /\ db_writes (snd (step toLowerCase s r)) = db_writes s)
  \/ (files (snd (step toLowerCase s r)) <> files s
      /\ db_writes (snd (step toLowerCase s r)) = S (db_writes s)).
Proof.
  destruct r as [now f m rd uuid| |i|now k msg h up]; cbn [step snd].
  - destruct f as [f|]; [|left; auto]. right. unfold upload; cbn [snd files db_writes].
    split; [|reflexivity]. intro E. apply (f_equal (@List.length _)) in E.
    rewrite length_app in E. cbn [List.length] in E. lia.
  - left; auto.
  - unfold delete. destruct (find_file i (files s)) as [f|] eqn:Ef; [|left; auto].
    right. cbn [snd files db_writes]. split; [|reflexivity].
    destruct (remove_file_split _ _ _ Ef) as [a [b [El Er]]]. rewrite Er, El.
    intro E. apply (f_equal (@List.length _)) in E.
    rewrite !length_app in E. cbn [List.length] in E. lia.
  - destruct (ask_frame s now k msg h up) as [E1 [_ E3]]. left; auto.
Qed.

(** [/api/ask] requests never touch the collection, the upload directory
    or db.json. *)
Theorem asks_leave_store (toLowerCase : jsstr -> jsstr) (s : Server) (rs : list Request) :
  forallb is_ask rs = true ->
  files (snd (run toLowerCase s rs)) = files s
  /\ disk (snd (run toLowerCase s rs)) = disk s
  /\ db_writes (snd (run toLowerCase s rs)) = db_writes s.
Proof.
  revert s; induction rs as [|r rs IH]; intros s H; [auto|].
  cbn [forallb] in H. apply andb_true_iff in H as [Hr H].
  rewrite CacheLaws.run_snd_cons.
  destruct r as [| | |now k msg h up]; try discriminate Hr. cbn [step].
  destruct (ask_frame s now k msg h up) as [E1 [E2 E3]].
  destruct (IH (snd (ask s now k msg h up)) H) as [F1 [F2 F3]].
  rewrite F1, F2, F3. auto.
Qed.

End InvariantFacts.

Module DbFacts.
Import RoundTrip.

Lemma printable_record (f : FileRecord) : printable (JObj (file_obj f)) = storable f.
Proof. destruct f. unfold storable, file_obj. simpl. btauto. Qed.

Lemma printable_db (fs : list FileRecord) :
  forallb storable fs = true -> printable (db_json fs) = true.
Proof.
  intro H. unfold db_json. cbn [printable forallb fst snd]. rewrite andb_true_r.
  apply andb_true_intro. split; [reflexivity|].
  induction fs as [|f fs IH]; [reflexivity|]. cbn [map forallb] in H |- *.
  rewrite printable_record. apply andb_true_iff in H as [Hf H]. rewrite Hf. apply IH, H.
Qed.

Lemma spaces2 : spaces (js "  ").
Proof. repeat constructor. Qed.

(** What [writeDb(data)] writes, [readDb()] reads back as [data], for every
    value whose strings are code units and whose numbers are safe
    integers. *)
Theorem writeDb_readDb (data : jsval) : printable data = true ->
  exists t, db_text data = Some t /\ readDb (Some t) = data.
Proof.
  intro H. destruct (stringify_parse (js "  ") data spaces2 H) as [t [H1 H2]].
  exists t. unfold db_text, readDb. rewrite H2. auto.
Qed.

(** After an upload or a delete has written the collection, the next
    [readDb()] gives the same records, in the same order. *)
Theorem collection_persists (fs : list FileRecord) : forallb storable fs = true ->
  exists t, db_text (db_json fs) = Some t /\ readDb (Some t) = db_json fs.
Proof.
  intro H. destruct (stringify_parse (js "  ") (db_json fs) spaces2 (printable_db fs H))
    as [t [H1 H2]].
  exists t. unfold db_text, readDb. rewrite H2. auto.
Qed.

End DbFacts.


(** ** The further properties on concrete inputs *)
Module FurtherExamples.
Import RoundTrip DbFacts CacheLaws MulterFacts MetadataFacts InvariantFacts.

Lemma writeDb_readDb_witness :
  printable (db_json [doc_pop]) = true /\
  exists t, db_text (db_json [doc_pop]) = Some t /\ readDb (Some t) = db_json [doc_pop].
Proof.
  split; [vm_compute; reflexivity|]. apply writeDb_readDb. vm_compute. reflexivity.
Defined.

Lemma collection_persists_witness :
  forallb storable [doc_pop; doc_ab_cd] = true /\
  exists t, db_text (db_json [doc_pop; doc_ab_cd]) = Some t
            /\ readDb (Some t) = db_json [doc_pop; doc_ab_cd].
Proof.
  split; [vm_compute; reflexivity|]. apply collection_persists. vm_compute. reflexivity.
Defined.

Lemma cacheKey_injective_witness :
  cacheKey (js "populacao") [(js "user", js "oi")] = cacheKey (js "populacao") [(js "model", js "ola")]
  /\ js "populacao" = js "populacao" /\ List.length [(js "user", js "oi")] = List.length [(js "model", js "ola")].
Proof.
  split; [reflexivity|]. apply cacheKey_injective. reflexivity.
Defined.

Lemma cache_get_after_set_witness :
  1000 <= 0 + stdTTL_ms /\
  cache_get 1000 (js "k") (cache_set 0 (js "k") (js "v") [])
  = (Some (js "v"), cache_set 0 (js "k") (js "v") []).
Proof.
  split; [unfold stdTTL_ms; lia|]. apply cache_get_after_set. unfold stdTTL_ms; lia.
Defined.

Lemma cache_get_after_expiry_witness :
  0 + stdTTL_ms < 3600001 /\
  cache_get 3600001 (js "k") (cache_set 0 (js "k") (js "v") []) = (None, cache_del (js "k") [])
  /\ cache_find (js "k") (cache_del (js "k") []) = None.
Proof.
  split; [unfold stdTTL_ms; lia|]. apply cache_get_after_expiry. unfold stdTTL_ms; lia.
Defined.

Lemma cache_set_other_key_witness :
  js "b" <> js "a" /\
  cache_find (js "b") (cache_set 0 (js "a") (js "v") [(js "b", (js "w", 7))])
  = cache_find (js "b") [(js "b", (js "w", 7))].
Proof.
  split; [discriminate|]. apply cache_set_other_key. discriminate.
Defined.


Lemma filename_injective_witness :
  0 <= 1700000000000 /\ 0 <= 1700000000000 /\
  Multer.filename 1700000000000 (js "a b") = Multer.filename 1700000000000 (js "a_b") /\
  1700000000000 = 1700000000000 /\ safeName (js "a b") = safeName (js "a_b").
Proof.
  split; [lia|]. split; [lia|]. split; [vm_compute; reflexivity|].
  apply filename_injective; [lia|lia|vm_compute; reflexivity].
Defined.

Lemma upload_malformed_metadata_witness :
  json_parse (js "{bad") = None /\
  upload_request js_to_lower server_fresh 5 (Some dados) (Some (js "{bad")) broken_readers (js "u5")
  = upload_request js_to_lower server_fresh 5 (Some dados) None broken_readers (js "u5").
Proof.
  split; [vm_compute; reflexivity|]. apply upload_malformed_metadata. vm_compute. reflexivity.
Defined.

Lemma upload_null_metadata_witness :
  json_parse (js "null") = Some JNull /\ ~ In (file_path dados) (map path (files server_fresh)) /\
  exists s',
    upload_request js_to_lower server_fresh 5 (Some dados) (Some (js "null")) broken_readers (js "u5")
      = Some (JsonResp 500 (JObj [(js "error", JStr (js "Processing failed"))]), s')
    /\ files s' = files server_fresh /\ cache s' = cache server_fresh
    /\ db_writes s' = db_writes server_fresh
    /\ In (file_path dados) (disk s') /\ ~ In (file_path dados) (map path (files s')).
Proof.
  assert (Hp : ~ In (file_path dados) (map path (files server_fresh)))
    by (vm_compute; intros [H|H]; [discriminate|exact H]).
  split; [vm_compute; reflexivity|]. split; [exact Hp|].
  apply upload_null_metadata; [vm_compute; reflexivity|exact Hp].
Defined.

Lemma run_consistent_witness :
  consistent server_fresh /\ fresh_run js_to_lower server_fresh upload_then_delete /\
  consistent (snd (run js_to_lower server_fresh upload_then_delete)).
Proof.
  assert (Hc : consistent server_fresh)
    by (vm_compute; repeat constructor; intros []).
  assert (Hf : fresh_run js_to_lower server_fresh upload_then_delete)
    by (vm_compute; repeat split; intros [H|H]; [discriminate|exact H|discriminate|exact H]).
  split; [exact Hc|]. split; [exact Hf|]. apply run_consistent; assumption.
Defined.

Lemma asks_leave_store_witness :
  forallb is_ask asks_after_failure = true /\
  files (snd (run js_to_lower server_fresh asks_after_failure)) = files server_fresh
  /\ disk (snd (run js_to_lower server_fresh asks_after_failure)) = disk server_fresh
  /\ db_writes (snd (run js_to_lower server_fresh asks_after_failure)) = db_writes server_fresh.
Proof.
  split; [reflexivity|]. apply asks_leave_store. reflexivity.
Defined.

End FurtherExamples.

(** ** [path.extname] and the [type] of a record *)
Module ExtFacts.

Lemma indexed_app (i : Z) (a b : jsstr) :
  indexed i (a ++ b) = indexed i a ++ indexed (i + zlen a) b.
Proof.
  revert i; induction a as [|c a IH]; intro i; cbn [app indexed].
  - rewrite zlen_nil, Z.add_0_r. reflexivity.
  - rewrite IH, zlen_cons. f_equal. f_equal. f_equal. lia.
Qed.

Lemma loop_inv (p : jsstr) : forall a b st, p = a ++ b -> J p (zlen a) st ->
  Final p (extname_loop (rev (indexed 0 a)) st).
Proof.
  induction a as [|c a IH] using rev_ind; intros b st Hp HJ.
  - cbn [rev indexed extname_loop]. destruct HJ as [HA [HB HC]]. intro Hs. destruct (HC Hs) as [He [Hr [Hat Hcl]]].
    rewrite zlen_nil in Hr. destruct HA as [HA|HA]; [contradiction|].
    refine (conj _ (conj _ (conj _ (conj Hat Hcl)))); lia.
  - rewrite indexed_app, rev_app_distr. cbn [indexed rev app]. rewrite Z.add_0_l.
    assert (Hc : unit_at p (zlen a) = c).
    { unfold unit_at, zlen. rewrite Nat2Z.id, Hp, <- app_assoc. cbn [app].
      rewrite app_nth2 by lia. rewrite Nat.sub_diag. reflexivity. }
    rewrite zlen_app, zlen_cons, zlen_nil in HJ. rewrite Z.add_0_r in HJ.
    assert (Hlen : zlen a + 1 <= zlen p).
    { rewrite Hp, !zlen_app, zlen_cons, zlen_nil. pose proof (zlen_nonneg b). lia. }
    pose proof (zlen_nonneg a) as Ha0.
    destruct HJ as [HA [HB HC]]. cbn [extname_loop].
    destruct (c =? 47) eqn:E47.
    + apply Z.eqb_eq in E47. rewrite E47 in Hc. destruct (matchedSlash st) eqn:Em; cbn [negb].
      * apply (IH (c :: b)); [rewrite Hp, <- app_assoc; reflexivity|].
        destruct HA as [HA|[_ HA]]; [|congruence].
        assert (Hs : startDot st = -1) by (destruct (Z.eq_dec (startDot st) (-1)); [auto|];
                                            destruct (HC n) as [? _]; contradiction).
        split; [left; exact HA|]. split; [intros _ ?; contradiction|intro; contradiction].
      * intro Hs. cbn [startDot end_] in *. destruct (HC Hs) as [He [Hr [Hat Hcl]]].
        destruct HA as [HA|HA]; [contradiction|].
    refine (conj _ (conj _ (conj _ (conj Hat Hcl)))); lia.
    + apply Z.eqb_neq in E47. apply (IH (c :: b)); [rewrite Hp, <- app_assoc; reflexivity|].
      remember (if end_ st =? -1
                then {| startDot := startDot st; startPart := startPart st;
                        end_ := zlen a + 1; matchedSlash := false;
                        preDotState := preDotState st |}
                else st) as st1 eqn:Est1.
      assert (P1 : zlen a < end_ st1 <= zlen p).
      { subst st1. destruct (end_ st =? -1) eqn:Ee; cbn [end_]; [lia|].
        apply Z.eqb_neq in Ee. destruct HA as [HA|HA]; [contradiction|lia]. }
      assert (P2 : startDot st1 = startDot st).
      { subst st1. destruct (end_ st =? -1); reflexivity. }
      assert (P3 : startDot st1 = -1 -> clear_range p (zlen a) (end_ st1)).
      { rewrite P2. intro Hs. subst st1. destruct (end_ st =? -1) eqn:Ee; cbn [end_].
        - intros j Hj. lia.
        - apply Z.eqb_neq in Ee. specialize (HB Hs Ee).
          replace (zlen a) with (zlen a + 1 - 1) by lia. exact HB. }
      assert (P4 : startDot st1 <> -1 -> zlen a + 1 <= startDot st1 < end_ st1
                   /\ unit_at p (startDot st1) = 46 /\ clear_range p (startDot st1) (end_ st1)).
      { rewrite P2. intro Hs. destruct (HC Hs) as [Ee [Hr [Hat Hcl]]]. subst st1.
        apply Z.eqb_neq in Ee. rewrite Ee. auto. }
      assert (Hm1 : matchedSlash st1 = false).
      { subst st1. destruct (end_ st =? -1) eqn:Ee; [reflexivity|].
        apply Z.eqb_neq in Ee. destruct HA as [HA|[_ HA]]; [contradiction|exact HA]. }
      clear Est1 HA HB HC.
      assert (Hsd : forall st2, startDot st2 = startDot st1 -> end_ st2 = end_ st1 ->
                    matchedSlash st2 = false -> startDot st1 <> -1 -> J p (zlen a) st2).
      { intros st2 E1 E2 E3 Hs. destruct (P4 Hs) as [Hr [Hat Hcl]].
        split; [right; rewrite E2, E3; split; [lia|reflexivity]|].
        split; [intro; congruence|]. intros _. rewrite E1, E2.
        refine (conj _ (conj _ (conj Hat Hcl))); lia. }
      destruct (c =? 46) eqn:E46.
      * apply Z.eqb_eq in E46. rewrite E46 in Hc. destruct (startDot st1 =? -1) eqn:Es.
        -- apply Z.eqb_eq in Es. unfold J; cbn [startDot end_ matchedSlash].
           split; [right; split; [lia|exact Hm1]|].
           split; [intro; lia|]. intros _. refine (conj _ (conj _ (conj Hc (P3 Es)))); lia.
        -- apply Z.eqb_neq in Es. destruct (negb (preDotState st1 =? 1));
             apply Hsd; auto.
      * apply Z.eqb_neq in E46. destruct (negb (startDot st1 =? -1)) eqn:Es.
        -- apply negb_true_iff, Z.eqb_neq in Es. apply Hsd; auto.
        -- apply negb_false_iff, Z.eqb_eq in Es. split; [right; split; [lia|exact Hm1]|].
           split; [|intro; contradiction].
           intros _ _ j Hj. destruct (Z.eq_dec j (zlen a)) as [->|Hne]; [rewrite Hc; auto|].
           apply P3; [exact Es|lia].
Qed.

Lemma skipn_nth_cons (l : jsstr) (m : nat) : (m < List.length l)%nat ->
  skipn m l = nth m l 0 :: skipn (S m) l.
Proof.
  revert m; induction l as [|x l IH]; intros m H; cbn [List.length] in H; [lia|].
  destruct m as [|m]; [reflexivity|]. cbn [skipn nth]. apply IH. lia.
Qed.

Lemma firstn_skipn_forall (P : Z -> Prop) (l : jsstr) (n : nat) : forall m,
  (forall i, (i < n)%nat -> (m + i < List.length l)%nat -> P (nth (m + i) l 0)) ->
  Forall P (firstn n (skipn m l)).
Proof.
  induction n as [|n IH]; intros m H; [constructor|].
  destruct (Nat.lt_ge_cases m (List.length l)) as [Hm|Hm].
  - rewrite (skipn_nth_cons l m Hm). cbn [firstn]. constructor.
    + specialize (H 0%nat ltac:(lia)). rewrite Nat.add_0_r in H. apply H. lia.
    + apply IH. intros i Hi Hl. replace (S m + i)%nat with (m + S i)%nat by lia.
      apply H; lia.
  - rewrite skipn_all2 by exact Hm. destruct n; constructor.
Qed.

Lemma extname_final (p : jsstr) :
  Final p (extname_loop (rev (indexed 0 p))
             {| startDot := -1; startPart := 0; end_ := -1;
                matchedSlash := true; preDotState := 0 |}).
Proof.
  apply (loop_inv p p []); [rewrite app_nil_r; reflexivity|].
  split; [left; reflexivity|]. cbn [startDot end_]. split; [intros _ H; contradiction H; reflexivity|].
  intro H; contradiction H; reflexivity.
Qed.

(** [path.extname(p)] is empty, or a "." of [p] followed by the units of
    [p] after it, none of which is a "." or a "/". *)
Lemma extname_shape (p : jsstr) :
  extname p = [] \/ exists r, extname p = 46 :: r /\ ~ In 46 r /\ ~ In 47 r
                              /\ exists a b, p = a ++ 46 :: r ++ b.
Proof.
  pose proof (extname_final p) as HF. unfold extname.
  set (st := extname_loop _ _) in *.
  destruct ((startDot st =? -1) || (end_ st =? -1) || (preDotState st =? 0)
            || ((preDotState st =? 1) && (startDot st =? end_ st - 1)
                && (startDot st =? startPart st + 1))) eqn:E; [left; reflexivity|right].
  assert (Hs : startDot st <> -1).
  { intro H. rewrite H in E. discriminate E. }
  destruct (HF Hs) as [He [Hr [Hl [Hat Hcl]]]].
  unfold zlen, unit_at in *.
  assert (Hm : (Z.to_nat (startDot st) < List.length p)%nat) by lia.
  rewrite (skipn_nth_cons p _ Hm), Hat.
  replace (Z.to_nat (end_ st - startDot st)) with (S (Z.to_nat (end_ st - startDot st - 1))) by lia.
  cbn [firstn]. eexists. split; [reflexivity|].
  assert (HP : Forall (fun x => x <> 46 /\ x <> 47)
                 (firstn (Z.to_nat (end_ st - startDot st - 1)) (skipn (S (Z.to_nat (startDot st))) p))).
  { apply firstn_skipn_forall. intros i Hi Hli.
    specialize (Hcl (startDot st + 1 + Z.of_nat i) ltac:(lia)). unfold unit_at in Hcl.
    replace (Z.to_nat (startDot st + 1 + Z.of_nat i)) with (S (Z.to_nat (startDot st)) + i)%nat
      in Hcl by lia. exact Hcl. }
  rewrite Forall_forall in HP.
  split; [intro H; exact (proj1 (HP _ H) eq_refl)|].
  split; [intro H; exact (proj2 (HP _ H) eq_refl)|].
  exists (firstn (Z.to_nat (startDot st)) p),
         (skipn (Z.to_nat (end_ st - startDot st - 1)) (skipn (S (Z.to_nat (startDot st))) p)).
  rewrite (firstn_skipn _ (skipn (S (Z.to_nat (startDot st))) p)).
  rewrite <- Hat, <- (skipn_nth_cons p _ Hm). symmetry. apply firstn_skipn.
Qed.

End ExtFacts.

(** The [type] of an uploaded record, [path.extname(name).replace('.', '')],
    has no "." and no "/", and is empty or follows a "." of the name. *)
Theorem upload_type_shape (n : jsstr) :
  ~ In 46 (replace_first_dot (extname n)) /\ ~ In 47 (replace_first_dot (extname n))
  /\ (replace_first_dot (extname n) = []
      \/ exists a b, n = a ++ 46 :: replace_first_dot (extname n) ++ b).
Proof.
  destruct (ExtFacts.extname_shape n) as [-> | [r [-> [H46 [H47 Hab]]]]].
  - cbn. split; [intros []|]. split; [intros []|]. left; reflexivity.
  - cbn [replace_first_dot Z.eqb Pos.eqb]. auto.
Qed.

(** ** The files a delete removes *)
Module DeleteFacts.

(** Deleting a stored record removes its file from the upload directory,
    and only that file. *)
Theorem delete_removes_only_its_file (s : Server) (i : jsstr) (f : FileRecord) :
  find_file i (files s) = Some f ->
  ~ In (path f) (disk (snd (delete s i)))
  /\ forall q, q <> path f -> In q (disk s) -> In q (disk (snd (delete s i))).
Proof.
  intro H. unfold delete. rewrite H. cbn [snd disk].
  destruct (existsb (jsstr_eqb (path f)) (disk s)) eqn:Ee.
  - split.
    + intro Hin. apply filter_In in Hin as [_ Hn]. rewrite jsstr_eqb_refl in Hn. discriminate.
    + intros q Hq Hin. apply filter_In. split; [exact Hin|].
      rewrite (jsstr_eqb_neq (path f) q); [reflexivity|]. intro E. apply Hq. symmetry. exact E.
  - split; [|auto]. intro Hin.
    assert (Ht : existsb (jsstr_eqb (path f)) (disk s) = true).
    { apply existsb_exists. exists (path f). split; [exact Hin|apply jsstr_eqb_refl]. }
    congruence.
Qed.

Lemma delete_removes_only_its_file_witness :
  find_file (js "4") (files server_fresh) = Some doc_pop /\
  ~ In (path doc_pop) (disk (snd (delete server_fresh (js "4"))))
  /\ forall q, q <> path doc_pop -> In q (disk server_fresh)
               -> In q (disk (snd (delete server_fresh (js "4")))).
Proof.
  split; [reflexivity|]. apply delete_removes_only_its_file. reflexivity.
Defined.

End DeleteFacts.
